(** * Employee report generator: the parser and the payout report of main.py

    A shallow embedding of [read_csv], [parse_csv_to_dicts],
    [generate_payout_report], [get_report_generator] and [main], with the
    parts of the Python run time they rely on ([str.strip], [str.split],
    [float], the [f] format, integer and binary64 arithmetic, [dict],
    [sorted]). [parse_arguments] only calls argparse and is not embedded:
    [main] takes the parsed [files] and [report].

    Conventions.
    - A text is a [string] whose characters are read as the code points
      0..255.
    - A [dict] with text keys is a [gmap string _]: the program never
      observes the insertion order of a dict (records are only read with
      [get], and the department dict is sorted before it is iterated).
    - A [float] is a [spec_float] of the Standard Library with the
      parameters of binary64; sums and products round to nearest, ties to
      even, as [SFadd] and [SFmul] define them.
    - A Python exception is a value of [exn]; a computation that can raise
      returns an [outcome]. A [name] or [department] that is a number is
      outside the data model of the program (every field but hours_worked
      and hourly_rate is a text): the embedding answers [NotModelled]
      there, and no property below relies on it.

    - The file system is a [gmap] from the paths of the regular files to
      the text that reading them gives; what [print] writes is the list
      of the printed texts.

    Layout: the embedding of the source, then the notions used in the
    statements, then the lemmas and the properties C1 to C10, then the
    further properties X1 to X16. *)

From Stdlib Require Import ZArith Ascii String DecimalString.
From Stdlib Require Import Floats.SpecFloat.
From stdpp Require Import base option list sorting gmap strings fin_maps.

Local Open Scope Z_scope.

(* ===================================================================== *)
(** ** Text primitives *)
(* ===================================================================== *)

Module Text.

(** [str.isspace] on one code point below 256: the characters that
    [str.strip()] removes. *)
Definition is_space (c : ascii) : bool :=
  let n := N_of_ascii c in
  ((9 <=? n) && (n <=? 13) || (28 <=? n) && (n <=? 32)
   || (n =? 133) || (n =? 160))%N.

Definition is_empty (s : string) : bool :=
  match s with "" => true | String _ _ => false end.

Fixpoint lstrip_with (sp : ascii → bool) (s : string) : string :=
  match s with
  | "" => ""
  | String c s' => if sp c then lstrip_with sp s' else s
  end.

Fixpoint rstrip_with (sp : ascii → bool) (s : string) : string :=
  match s with
  | "" => ""
  | String c s' =>
      let r := rstrip_with sp s' in
      if sp c && is_empty r then "" else String c r
  end.

Definition strip_with (sp : ascii → bool) (s : string) : string :=
  rstrip_with sp (lstrip_with sp s).

(** [s.strip()] *)
Definition strip : string → string := strip_with is_space.

(** [s.split(sep)] for a separator of one character: one more piece than
    there are separators, so never the empty list. *)
Fixpoint split (sep : ascii) (s : string) : list string :=
  match s with
  | "" => [""]
  | String c s' =>
      if decide (c = sep) then "" :: split sep s'
      else match split sep s' with
           | w :: ws => String c w :: ws
           | [] => [String c ""]
           end
  end.

(** [sep.join(lines)] *)
Fixpoint join (sep : string) (l : list string) : string :=
  match l with
  | [] => ""
  | [x] => x
  | x :: l' => x +:+ sep +:+ join sep l'
  end.

Fixpoint spaces (n : nat) : string :=
  match n with O => "" | S n' => String " " (spaces n') end.

(** [format(s, "<w")]: pad on the right up to width [w], never cut. *)
Definition ljust (w : nat) (s : string) : string :=
  s +:+ spaces (w - String.length s).

(** [format(s, ">w")]: pad on the left up to width [w], never cut. *)
Definition rjust (w : nat) (s : string) : string :=
  spaces (w - String.length s) +:+ s.

(** [needle in s] *)
Fixpoint is_prefix (p s : string) : bool :=
  match p, s with
  | "", _ => true
  | String a p', String b s' => if decide (a = b) then is_prefix p' s' else false
  | String _ _, "" => false
  end.

Fixpoint contains (needle s : string) : bool :=
  is_prefix needle s
  || match s with "" => false | String _ s' => contains needle s' end.

(** [repeat s n]: [s * n] for a text and a count. *)
Fixpoint repeat (s : string) (n : nat) : string :=
  match n with O => "" | S n' => s +:+ repeat s n' end.

End Text.

Definition newline : ascii := ascii_of_N 10.
Definition comma : ascii := ","%char.

(* ===================================================================== *)
(** ** read_csv (main.py 28-47) *)
(* ===================================================================== *)

(** The argument is what [f.read()] returned for the file. *)
Definition read_csv (text : string) : list string * list (list string) :=
  let content := Text.split newline (Text.strip text) in
  match content with
  | [] => ([], [])
  | first :: rest =>
      let headers := Text.split comma first in
      let data := Text.split comma <$> filter (λ row, Text.is_empty row = false) rest in
      (headers, data)
  end.

(** The header loop of parse_csv_to_dicts (main.py 66-71), one header. *)
Definition normalize_header (header : string) : string :=
  if decide (header ∈ ["hourly_rate"; "rate"; "salary"])
  then "hourly_rate" else header.

(* ===================================================================== *)
(** ** Values, exceptions *)
(* ===================================================================== *)

(** The values a record holds: [str], [int] (unbounded) and [float]
    (binary64, as a [spec_float] of precision 53 and maximal exponent
    1024). *)
Inductive pyval :=
| VStr (s : string)
| VInt (z : Z)
| VFloat (f : spec_float).

(** The exceptions of the modelled fragment. [ValueError] carries its
    message; the message of the other built-in exceptions is not modelled.
    [NotModelled] marks an input outside the data model (a [name] or
    [department] that is not a text), where Python's rendering of the
    number as text is not part of this embedding. *)
Inductive exn :=
| ValueError (msg : string)
| TypeError
| OverflowError
| IndexError
| NotModelled.

Inductive outcome (A : Type) :=
| Ok (a : A)
| Raise (e : exn).
Arguments Ok {A} a.
Arguments Raise {A} e.

#[global] Instance outcome_ret : MRet outcome := λ A a, Ok a.
#[global] Instance outcome_bind : MBind outcome := λ A B k m,
  match m with Ok a => k a | Raise e => Raise e end.

(** A record: the [dict] built for one row. *)
Abbreviation Employee := (gmap string pyval).

(* ===================================================================== *)
(** ** binary64 and the built-ins on numbers *)
(* ===================================================================== *)

Module Float.

Definition prec : Z := 53.
Definition emax : Z := 1024.

Definition add : spec_float → spec_float → spec_float := SFadd prec emax.
Definition mul : spec_float → spec_float → spec_float := SFmul prec emax.

(** Integers from this bound on round to an infinity:
    [2^1024 - 2^970] is half way between the largest double and [2^1024]. *)
Definition int_limit : Z := 2 ^ 1024 - 2 ^ 970.

(** The double nearest to an integer (ties to even). *)
Definition nearest_of_Z (z : Z) : spec_float :=
  binary_normalize prec emax z 0 false.

(** The double nearest to [m * 10^e] (ties to even), signed by [neg]:
    the value [float] gives to a decimal numeral with digits [m >= 0] and
    exponent [e]. For a negative [e] the
    quotient is taken with two guard bits and a sticky bit, which rounds
    as the exact quotient does. *)
Definition nearest_of_decimal (neg : bool) (m : Z) (e : Z) : spec_float :=
  if m <=? 0 then S754_zero neg
  else if 0 <=? e then binary_round prec emax neg (Z.to_pos (m * 10 ^ e)) 0
  else
    let d := 10 ^ (- e) in
    let k := Z.max 0 (Z.log2 d + 56 - Z.log2 m) in
    let '(q, r) := Z.div_eucl (m * 2 ^ k) d in
    let q' := 2 * q + (if r =? 0 then 0 else 1) in
    binary_round prec emax neg (Z.to_pos q') (- (k + 1)).

(** The integer nearest to [m * 2^e] (ties to even). *)
Definition round_half_even (m : positive) (e : Z) : Z :=
  if 0 <=? e then Zpos m * 2 ^ e
  else
    let d := 2 ^ (- e) in
    let '(q, r) := Z.div_eucl (Zpos m) d in
    match 2 * r ?= d with
    | Lt => q
    | Gt => q + 1
    | Eq => if Z.even q then q else q + 1
    end.

Definition decimal (z : Z) : string :=
  NilZero.string_of_uint (N.to_uint (Z.to_N z)).

(** [format(x, ".0f")] for a float [x]. *)
Definition format_f0 (x : spec_float) : string :=
  match x with
  | S754_nan => "nan"
  | S754_infinity s => if s then "-inf" else "inf"
  | S754_zero s => if s then "-0" else "0"
  | S754_finite s m e =>
      (if s then "-" else "") +:+ decimal (round_half_even m e)
  end.

(** *** float(text) *)

Definition code (c : ascii) : N := N_of_ascii c.
Definition is_digit (c : ascii) : bool := ((48 <=? code c) && (code c <=? 57))%N.
Definition digit_val (c : ascii) : Z := Z.of_N (code c) - 48.
Definition lower (c : ascii) : ascii :=
  if ((65 <=? code c) && (code c <=? 90))%N then ascii_of_N (code c + 32) else c.

(** The characters [float] strips on both sides. *)
Definition is_space (c : ascii) : bool :=
  ((9 <=? code c) && (code c <=? 13) || (code c =? 32)
   || (code c =? 133) || (code c =? 160))%N.

(** An underscore is accepted between two digits only, and dropped. *)
Fixpoint drop_underscores (prev : ascii) (s : list ascii) : option (list ascii) :=
  match s with
  | [] => if decide (prev = "_"%char) then None else Some []
  | c :: s' =>
      if decide (c = "_"%char)
      then (if is_digit prev then drop_underscores c s' else None)
      else if decide (prev = "_"%char) then
             (if is_digit c then cons c <$> drop_underscores c s' else None)
           else cons c <$> drop_underscores c s'
  end.

Fixpoint span_digits (s : list ascii) : list ascii * list ascii :=
  match s with
  | c :: s' =>
      if is_digit c then let '(ds, r) := span_digits s' in (c :: ds, r)
      else ([], s)
  | [] => ([], [])
  end.

Definition digits_value (ds : list ascii) : Z :=
  fold_left (λ acc c, 10 * acc + digit_val c) ds 0.

Definition take_sign (s : list ascii) : bool * list ascii :=
  match s with
  | c :: s' =>
      if decide (c = "-"%char) then (true, s')
      else if decide (c = "+"%char) then (false, s')
      else (false, s)
  | [] => (false, [])
  end.

(** [(e|E) [sign] digits] up to the end of the text, or nothing. *)
Definition exponent (s : list ascii) : option Z :=
  match s with
  | [] => Some 0
  | c :: s' =>
      if decide (lower c = "e"%char) then
        let '(neg, s'') := take_sign s' in
        let '(ds, r) := span_digits s'' in
        match ds, r with
        | _ :: _, [] => Some (if neg then - digits_value ds else digits_value ds)
        | _, _ => None
        end
      else None
  end.

Definition unsigned_number (neg : bool) (s : list ascii) : option spec_float :=
  let '(ip, r) := span_digits s in
  let '(fp, r) :=
    match r with
    | c :: r' => if decide (c = "."%char) then span_digits r' else ([], r)
    | [] => ([], [])
    end in
  match ip ++ fp with
  | [] => None
  | _ :: _ =>
      e ← exponent r;
      Some (nearest_of_decimal neg (digits_value (ip ++ fp)) (e - Z.of_nat (length fp)))
  end.

Definition special (neg : bool) (s : list ascii) : option spec_float :=
  let w := string_of_list_ascii (lower <$> s) in
  if decide (w = "inf" ∨ w = "infinity") then Some (S754_infinity neg)
  else if decide (w = "nan") then Some S754_nan
  else None.

(** [float(text)]: [None] is the [ValueError] of a text that is no
    numeral. *)
Definition of_string (text : string) : option spec_float :=
  s ← drop_underscores "000"%char (list_ascii_of_string text);
  let s := list_ascii_of_string
             (Text.strip_with is_space (string_of_list_ascii s)) in
  let '(neg, body) := take_sign s in
  match special neg body with
  | Some x => Some x
  | None => unsigned_number neg body
  end.

(** [float(n)] for an int. *)
Definition of_int (z : Z) : outcome spec_float :=
  if Z.abs z <? int_limit then Ok (nearest_of_Z z) else Raise OverflowError.

End Float.

(** *** Arithmetic and formatting on values *)

(** [a * b] *)
Definition py_mul (a b : pyval) : outcome pyval :=
  match a, b with
  | VInt x, VInt y => Ok (VInt (x * y))
  | VInt x, VFloat g => f ← Float.of_int x; Ok (VFloat (Float.mul f g))
  | VFloat f, VInt y => g ← Float.of_int y; Ok (VFloat (Float.mul f g))
  | VFloat f, VFloat g => Ok (VFloat (Float.mul f g))
  | VStr s, VInt n | VInt n, VStr s => Ok (VStr (Text.repeat s (Z.to_nat n)))
  | _, _ => Raise TypeError
  end.

(** [a + b] *)
Definition py_add (a b : pyval) : outcome pyval :=
  match a, b with
  | VInt x, VInt y => Ok (VInt (x + y))
  | VInt x, VFloat g => f ← Float.of_int x; Ok (VFloat (Float.add f g))
  | VFloat f, VInt y => g ← Float.of_int y; Ok (VFloat (Float.add f g))
  | VFloat f, VFloat g => Ok (VFloat (Float.add f g))
  | VStr s, VStr t => Ok (VStr (s +:+ t))
  | _, _ => Raise TypeError
  end.

(** [format(v, "w.0f")]; [w = 0] is the format [".0f"]. *)
Definition format_f (w : nat) (v : pyval) : outcome string :=
  match v with
  | VFloat f => Ok (Text.rjust w (Float.format_f0 f))
  | VInt z => f ← Float.of_int z; Ok (Text.rjust w (Float.format_f0 f))
  | VStr _ => Raise (ValueError "Unknown format code 'f' for object of type 'str'")
  end.

(** [e.get(key, default)] where the program uses the value as a text. *)
Definition get_text (e : Employee) (key default : string) : outcome string :=
  match e !! key with
  | None => Ok default
  | Some (VStr s) => Ok s
  | Some _ => Raise NotModelled
  end.

(** [l[i]] *)
Definition index {A} (l : list A) (i : nat) : outcome A :=
  match l !! i with Some x => Ok x | None => Raise IndexError end.

(* ===================================================================== *)
(** ** parse_csv_to_dicts (main.py 50-90) *)
(* ===================================================================== *)

(** main.py 66-71: the loop that appends one normalized name per header. *)
Definition normalize_headers (headers : list string) : list string :=
  foldl (λ normalized_headers header,
           normalized_headers ++ [normalize_header header]) [] headers.

(** main.py 81-87: the value stored under [key] for the cell [value]. *)
Definition store_cell (key value : string) (employee : Employee) : Employee :=
  if decide (key ∈ ["hours_worked"; "hourly_rate"]) then
    match Float.of_string value with
    | Some f => <[key := VFloat f]> employee
    | None => <[key := VInt 0]> employee
    end
  else <[key := VStr value]> employee.

(** main.py 79-87: [for i, value in enumerate(row)], from index [i] on. *)
Fixpoint fill_employee (normalized_headers : list string) (i : nat)
    (row : list string) (employee : Employee) : outcome Employee :=
  match row with
  | [] => Ok employee
  | value :: row' =>
      key ← index normalized_headers i;
      fill_employee normalized_headers (S i) row' (store_cell key value employee)
  end.

(** main.py 74-88: [for row in data], with the records appended so far. *)
Fixpoint rows_loop (headers normalized_headers : list string)
    (data : list (list string)) (result : list Employee)
    : outcome (list Employee) :=
  match data with
  | [] => Ok result
  | row :: data' =>
      if decide (length row ≠ length headers)
      then rows_loop headers normalized_headers data' result
      else
        employee ← fill_employee normalized_headers 0 row ∅;
        rows_loop headers normalized_headers data' (result ++ [employee])
  end.

(** The argument is the text of the file at [file_path]. *)
Definition parse_csv_to_dicts (text : string) : outcome (list Employee) :=
  let '(headers, data) := read_csv text in
  match headers, data with
  | [], _ | _, [] => Ok []
  | _, _ => rows_loop headers (normalize_headers headers) data []
  end.

(* ===================================================================== *)
(** ** generate_payout_report (main.py 93-136) *)
(* ===================================================================== *)

(** main.py 99-104 *)
Fixpoint group_by_department (employees_data : list Employee)
    (departments : gmap string (list Employee))
    : outcome (gmap string (list Employee)) :=
  match employees_data with
  | [] => Ok departments
  | employee :: rest =>
      dept ← get_text employee "department" "Unknown";
      let departments :=
        if decide (is_Some (departments !! dept)) then departments
        else <[dept := []]> departments in
      group_by_department rest (alter (λ l, l ++ [employee]) dept departments)
  end.

(** The order of [sorted(departments.items())]. The keys of a dict are
    distinct, so two items always differ in the key and the comparison of
    the pairs never reaches the second component. *)
Definition item_le (x y : string * list Employee) : Prop := String.le x.1 y.1.

#[global] Instance item_le_dec : RelDecision item_le.
Proof. intros x y. unfold item_le. apply _. Defined.

Definition sorted_items (departments : gmap string (list Employee))
    : list (string * list Employee) :=
  merge_sort item_le (map_to_list departments).

(** The running state of a loop: the lines emitted so far and the two
    totals. *)
Record totals := Totals {
  report_lines : list string;
  total_hours : pyval;
  total_payout : pyval
}.

Definition header_line : string :=
  Text.ljust 30 "name" +:+ " " +:+ Text.rjust 8 "hours" +:+ " "
  +:+ Text.rjust 8 "rate" +:+ " " +:+ Text.rjust 10 "payout".

(** main.py 119-124: the values read from one employee and the line
    emitted for it. *)
Definition employee_row (employee : Employee) : outcome (string * pyval * pyval) :=
  name ← get_text employee "name" "Unknown";
  let hours := default (VInt 0) (employee !! "hours_worked") in
  let rate := default (VInt 0) (employee !! "hourly_rate") in
  payout ← py_mul hours rate;
  h ← format_f 8 hours;
  r ← format_f 8 rate;
  p ← format_f 9 payout;
  Ok ("-------------- " +:+ Text.ljust 20 name +:+ " " +:+ h +:+ " "
      +:+ r +:+ " $" +:+ p, hours, payout).

(** main.py 118-127: one employee of a department. *)
Definition employee_step (st : totals) (employee : Employee) : outcome totals :=
  '(line, hours, payout) ← employee_row employee;
  dept_total_hours ← py_add (total_hours st) hours;
  dept_total_payout ← py_add (total_payout st) payout;
  Ok (Totals (report_lines st ++ [line]) dept_total_hours dept_total_payout).

Fixpoint employees_loop (st : totals) (employees : list Employee) : outcome totals :=
  match employees with
  | [] => Ok st
  | employee :: rest => st' ← employee_step st employee; employees_loop st' rest
  end.

(** main.py 129: the subtotal line of a department. *)
Definition subtotal_line (dept_total_hours dept_total_payout : pyval)
    : outcome string :=
  h ← format_f 8 dept_total_hours;
  p ← format_f 8 dept_total_payout;
  Ok (Text.ljust 45 " " +:+ " " +:+ h +:+ " " +:+ Text.ljust 8 " "
      +:+ " $" +:+ p).

(** main.py 114-131: one department. *)
Definition department_step (st : totals) (item : string * list Employee)
    : outcome totals :=
  let '(dept, employees) := item in
  d ← employees_loop (Totals (report_lines st ++ [dept]) (VInt 0) (VInt 0)) employees;
  line ← subtotal_line (total_hours d) (total_payout d);
  grand_total_hours ← py_add (total_hours st) (total_hours d);
  grand_total_payout ← py_add (total_payout st) (total_payout d);
  Ok (Totals (report_lines d ++ [line]) grand_total_hours grand_total_payout).

Fixpoint departments_loop (st : totals) (items : list (string * list Employee))
    : outcome totals :=
  match items with
  | [] => Ok st
  | item :: rest => st' ← department_step st item; departments_loop st' rest
  end.

(** main.py 99-131: the state after the last department. *)
Definition payout_totals (employees_data : list Employee) : outcome totals :=
  departments ← group_by_department employees_data ∅;
  departments_loop (Totals [header_line] (VInt 0) (VInt 0)) (sorted_items departments).

(** main.py 133-134: the two closing lines. *)
Definition total_lines (grand_total_hours grand_total_payout : pyval)
    : outcome (list string) :=
  h ← format_f 0 grand_total_hours;
  p ← format_f 0 grand_total_payout;
  Ok [String newline "Total hours: " +:+ h; "Total payout: $" +:+ p].

Definition generate_payout_report (employees_data : list Employee) : outcome string :=
  match employees_data with
  | [] => Ok "No data available for report."
  | _ :: _ =>
      st ← payout_totals employees_data;
      closing ← total_lines (total_hours st) (total_payout st);
      Ok (Text.join (String newline "") (report_lines st ++ closing))
  end.

(* ===================================================================== *)
(** ** get_report_generator (main.py 139-149) *)
(* ===================================================================== *)

Definition report_generators : gmap string (list Employee → outcome string) :=
  {[ "payout" := generate_payout_report ]}.

Definition get_report_generator (report_type : string)
    : outcome (list Employee → outcome string) :=
  match report_generators !! report_type with
  | None => Raise (ValueError ("Unknown report type: " +:+ report_type))
  | Some generator => Ok generator
  end.

(** main.py 169-172: select the report, then run it on the records. *)
Definition run_report (report_type : string) (all_employees : list Employee)
    : outcome string :=
  report_generator ← get_report_generator report_type;
  report_generator all_employees.

(* ===================================================================== *)
(** ** Notions used to state the properties *)
(* ===================================================================== *)

(** The value stored for a cell under a key (main.py 81-87), as a value:
    what [store_cell] inserts. *)
Definition cell_value (key value : string) : pyval :=
  if decide (key ∈ ["hours_worked"; "hourly_rate"]) then
    match Float.of_string value with
    | Some f => VFloat f
    | None => VInt 0
    end
  else VStr value.

(** The record built from a list of (key, cell) pairs, left to right. *)
Definition store_cells (employee : Employee) (cells : list (string * string))
    : Employee :=
  foldl (λ e kv, store_cell kv.1 kv.2 e) employee cells.

(** The record of a row of the right width. *)
Definition record_of (headers row : list string) : Employee :=
  store_cells ∅ (zip (normalize_header <$> headers) row).

(** [row] has as many cells as there are headers (main.py 75). *)
Definition width_ok (headers row : list string) : Prop :=
  length row = length headers.

#[global] Instance width_ok_dec headers row : Decision (width_ok headers row).
Proof. unfold width_ok. apply _. Defined.

(** A number as the parser stores it: a float, or the int 0 of a failed
    conversion. *)
Definition parsed_number (v : pyval) : Prop :=
  match v with VFloat _ | VInt 0 => True | _ => False end.

(** The shape of the records the parser builds: a number under
    [hours_worked] and [hourly_rate], a text under every other key. *)
Definition parsed_value (key : string) (v : pyval) : Prop :=
  if decide (key ∈ ["hours_worked"; "hourly_rate"])
  then parsed_number v
  else match v with VStr _ => True | _ => False end.

Definition parsed_employee (e : Employee) : Prop :=
  ∀ key v, e !! key = Some v → parsed_value key v.

#[global] Instance exn_eq_dec : EqDecision exn.
Proof. solve_decision. Defined.
#[global] Instance outcome_eq_dec `{EqDecision A} : EqDecision (outcome A).
Proof. solve_decision. Defined.

(** The records of a department, in arrival order. *)
Definition in_department (employees_data : list Employee) (dept : string)
    : list Employee :=
  filter (λ e, get_text e "department" "Unknown" = Ok dept) employees_data.

(** Strictly before, in the order of the code points. *)
Definition strictly_before (a b : string) : Prop := String.le a b ∧ a ≠ b.

(** [hours_worked] and [hourly_rate] of a record, 0 when absent. *)
Definition hours_of (e : Employee) : pyval := default (VInt 0) (e !! "hours_worked").
Definition rate_of (e : Employee) : pyval := default (VInt 0) (e !! "hourly_rate").

(** Adding up left to right with [+], from the int 0. *)
Fixpoint py_sum_from (acc : pyval) (vs : list pyval) : outcome pyval :=
  match vs with
  | [] => Ok acc
  | v :: vs' => acc' ← py_add acc v; py_sum_from acc' vs'
  end.
Definition py_sum : list pyval → outcome pyval := py_sum_from (VInt 0).

(** [hours * rate] for each record of a list, in order. *)
Fixpoint payouts_of (employees : list Employee) : outcome (list pyval) :=
  match employees with
  | [] => Ok []
  | e :: rest =>
      p ← py_mul (hours_of e) (rate_of e); ps ← payouts_of rest; Ok (p :: ps)
  end.

(** A record whose hours and rate are ints (absent counts as the int 0). *)
Definition int_valued (e : Employee) : Prop :=
  (∃ h, hours_of e = VInt h) ∧ (∃ r, rate_of e = VInt r).

Definition int_of (v : pyval) : Z := match v with VInt z => z | _ => 0 end.

Definition Zsum (zs : list Z) : Z := foldr Z.add 0 zs.

(** The part of the report for one department: the rows of its employees
    (line, hours, payout), its subtotals (summed left to right from the
    int 0) and its lines: the name, the employee lines, the subtotal
    line. *)
Definition section_of (item : string * list Employee)
    (sec : list string * pyval * pyval) : Prop :=
  ∃ (rows : list (string * pyval * pyval)) (subtotal : string),
    Forall2 (λ e row, employee_row e = Ok row) item.2 rows
    ∧ py_sum rows.*1.*2 = Ok sec.1.2
    ∧ py_sum rows.*2 = Ok sec.2
    ∧ subtotal_line sec.1.2 sec.2 = Ok subtotal
    ∧ sec.1.1 = item.1 :: rows.*1.*1 ++ [subtotal].

(** The three records of test_generate_payout_report. *)
Definition three_records : list Employee :=
  [ {[ "name" := VStr "John Doe"; "department" := VStr "IT";
       "hours_worked" := VInt 160; "hourly_rate" := VInt 50 ]};
    {[ "name" := VStr "Jane Smith"; "department" := VStr "IT";
       "hours_worked" := VInt 150; "hourly_rate" := VInt 60 ]};
    {[ "name" := VStr "Bob Brown"; "department" := VStr "HR";
       "hours_worked" := VInt 170; "hourly_rate" := VInt 40 ]} ].

(** The sum, over the items of the department dict, of an integer
    measure of their records. *)
Definition items_sum (f : Employee → Z) (items : list (string * list Employee)) : Z :=
  Zsum ((λ item, Zsum (f <$> item.2)) <$> items).

(** The integer a value stands for exactly, when it is one: an int, or a
    float whose value is an integer. *)
Definition exact_int (v : pyval) : option Z :=
  match v with
  | VInt z => Some z
  | VFloat (S754_zero _) => Some 0
  | VFloat (S754_finite s m e) =>
      let z := if 0 <=? e then Zpos m * 2 ^ e else Zpos m / 2 ^ (- e) in
      if (0 <=? e) || (Zpos m mod 2 ^ (- e) =? 0)
      then Some (if s then - z else z) else None
  | _ => None
  end.

Definition exact_payout (e : Employee) : option Z :=
  h ← exact_int (hours_of e); r ← exact_int (rate_of e); Some (h * r).

(** The canonical binary64 of a positive integer [n] below 2^53: a
    mantissa of 53 bits. *)
Definition canon_pos (s : bool) (n : Z) : spec_float :=
  S754_finite s (Z.to_pos (n * 2 ^ (52 - Z.log2 n))) (Z.log2 n - 52).

#[global] Instance spec_float_eq_dec : EqDecision spec_float.
Proof. solve_decision. Defined.
#[global] Instance pyval_eq_dec : EqDecision pyval.
Proof. solve_decision. Defined.

(** [v] is the whole number [n], from 0 to below 2^53: the int [n], or the
    float of value [n]. *)
Definition whole (v : pyval) (n : Z) : Prop :=
  0 ≤ n < 2 ^ 53 ∧ (v = VInt n ∨ v = VFloat (Float.nearest_of_Z n)).

#[global] Instance whole_dec v n : Decision (whole v n).
Proof. unfold whole. apply _. Defined.

(** The whole number a value is, if it is one. *)
Definition whole_number (v : pyval) : option Z :=
  n ← exact_int v; if decide (whole v n) then Some n else None.

(** The hours, rate and payout of a record as whole numbers (0 when they
    are none), and the records for which they are. *)
Definition whole_hours (e : Employee) : Z := default 0 (whole_number (hours_of e)).
Definition whole_rate (e : Employee) : Z := default 0 (whole_number (rate_of e)).
Definition whole_payout (e : Employee) : Z := whole_hours e * whole_rate e.
Definition whole_valued (e : Employee) : Prop :=
  is_Some (whole_number (hours_of e)) ∧ is_Some (whole_number (rate_of e)).

(** A file with a large and three small payouts in two departments, and
    its records: the hours 9007199254740992 = 2^53 and 1, the rate 1, as
    floats. *)
Definition drifting_text : string :=
  "department,hours_worked,rate
B,9007199254740992,1
A,1,1
A,1,1
B,1,1".

Definition float_one : spec_float := S754_finite false 4503599627370496 (-52).
Definition float_2_53 : spec_float := S754_finite false 4503599627370496 1.

Definition drifting_records : list Employee :=
  [ {[ "department" := VStr "B"; "hours_worked" := VFloat float_2_53;
       "hourly_rate" := VFloat float_one ]};
    {[ "department" := VStr "A"; "hours_worked" := VFloat float_one;
       "hourly_rate" := VFloat float_one ]};
    {[ "department" := VStr "A"; "hours_worked" := VFloat float_one;
       "hourly_rate" := VFloat float_one ]};
    {[ "department" := VStr "B"; "hours_worked" := VFloat float_one;
       "hourly_rate" := VFloat float_one ]} ].

(** The lines of the report of [three_records]. *)
Definition three_records_lines : list string :=
  [ "name                              hours     rate     payout";
    "HR";
    "-------------- Bob Brown                 170       40 $     6800";
    "                                                   170          $    6800";
    "IT";
    "-------------- John Doe                  160       50 $     8000";
    "-------------- Jane Smith                150       60 $     9000";
    "                                                   310          $   17000";
    "";
    "Total hours: 480";
    "Total payout: $23800" ].

(** The records the payout report is written for, wider than those of
    the parser: the name and the department are texts or absent, the
    hours and the rate are ints or floats or absent. *)
Definition text_or_absent (e : Employee) (key : string) : Prop :=
  match e !! key with
  | None | Some (VStr _) => True
  | Some _ => False
  end.

Definition is_number (v : pyval) : Prop :=
  match v with VInt _ | VFloat _ => True | VStr _ => False end.

Definition numeric_employee (e : Employee) : Prop :=
  text_or_absent e "name" ∧ text_or_absent e "department"
  ∧ is_number (hours_of e) ∧ is_number (rate_of e).

(** The absolute value of an int, 0 for a float: what [float(n)] has to
    accept when the value meets a float or is formatted. *)
Definition int_size (v : pyval) : Z :=
  match v with VInt z => Z.abs z | _ => 0 end.

(** The absolute value of [hours * rate] when both are ints (the product
    is then an int), 0 otherwise (the product is a float). *)
Definition payout_size (e : Employee) : Z :=
  match hours_of e, rate_of e with
  | VInt h, VInt r => Z.abs (h * r)
  | _, _ => 0
  end.

(** The ints of the records stay convertible to float, alone and added
    up: every int rate, the sum of the absolute int hours and the sum of
    the absolute int payouts are below the first int that [float]
    refuses. *)
Definition in_float_range (employees_data : list Employee) : Prop :=
  Forall (λ e, int_size (rate_of e) < Float.int_limit) employees_data
  ∧ Zsum ((λ e, int_size (hours_of e)) <$> employees_data) < Float.int_limit
  ∧ Zsum (payout_size <$> employees_data) < Float.int_limit.

(** One record with int hours that no float holds, and one with a text
    under hours_worked. *)
Definition huge_hours_records : list Employee :=
  [ {[ "name" := VStr "Ann"; "department" := VStr "IT";
       "hours_worked" := VInt (10 ^ 400); "hourly_rate" := VInt 1 ]} ].

Definition text_hours_records : list Employee :=
  [ {[ "name" := VStr "Ann"; "department" := VStr "IT";
       "hours_worked" := VStr "many"; "hourly_rate" := VInt 1 ]} ].

(* ===================================================================== *)
(** ** Further notions: tables, blank text, the departments of a report *)
(* ===================================================================== *)

(** [c in s] for one character. *)
Fixpoint has_char (c : ascii) (s : string) : bool :=
  match s with
  | "" => false
  | String a s' => if decide (a = c) then true else has_char c s'
  end.

(** A cell that [read_csv] can give back: no comma and no newline in it. *)
Definition plain_cell (s : string) : Prop :=
  has_char comma s = false ∧ has_char newline s = false.

(** A row that [read_csv] can give back: at least one cell, not the one
    empty cell of a blank line, plain cells. *)
Definition plain_row (row : list string) : Prop :=
  row ≠ [] ∧ row ≠ [""] ∧ Forall plain_cell row.

(** A table written the way [read_csv] reads it: one line per row, the
    header first, the cells of a line joined by commas. *)
Definition csv_text (headers : list string) (data : list (list string)) : string :=
  Text.join (String newline "") (Text.join (String comma "") <$> headers :: data).

(** A text of whitespace only, as [str.strip] sees it. *)
Fixpoint blank (s : string) : bool :=
  match s with
  | "" => true
  | String c s' => Text.is_space c && blank s'
  end.
(** The departments that occur in a list of records ("Unknown" for a
    record without one). *)
Definition department_names (employees_data : list Employee) : gset string :=
  list_to_set (omap (λ e, match get_text e "department" "Unknown" with
                          | Ok d => Some d
                          | Raise _ => None
                          end) employees_data).
(** The three records of the test with the HR record between the two IT
    records. *)
Definition three_records_interleaved : list Employee :=
  [ {[ "name" := VStr "John Doe"; "department" := VStr "IT";
       "hours_worked" := VInt 160; "hourly_rate" := VInt 50 ]};
    {[ "name" := VStr "Bob Brown"; "department" := VStr "HR";
       "hours_worked" := VInt 170; "hourly_rate" := VInt 40 ]};
    {[ "name" := VStr "Jane Smith"; "department" := VStr "IT";
       "hours_worked" := VInt 150; "hourly_rate" := VInt 60 ]} ].

(** The same table with its columns in two orders. *)
Definition columns_text : string :=
  "name,department,rate
Ann,IT,50
Bob,HR,40".

Definition columns_text_rotated : string :=
  "rate,name,department
50,Ann,IT
40,Bob,HR".

(* ===================================================================== *)
(** ** main (main.py 152-178) *)
(* ===================================================================== *)

(** What ends a run that nothing catches: [open] on a path that is no
    file, or an exception of the parser or of the report other than
    ValueError. *)
Inductive failure :=
| FileNotFoundError (file_path : string)
| Uncaught (e : exn).

(** What a run that returns has printed (one entry per [print]) and the
    value main returned, the exit code of the process. *)
Record run := Run {
  printed : list string;
  returned : Z
}.

(** The file system is the map from the paths of the regular files to
    their text: [os.path.isfile(p)] holds for the keys. *)
Definition isfile (fs : gmap string string) (file_path : string) : bool :=
  bool_decide (is_Some (fs !! file_path)).

(** [parse_csv_to_dicts(file_path)]: open, read, parse. *)
Definition parse_csv_file (fs : gmap string string) (file_path : string)
    : failure + list Employee :=
  match fs !! file_path with
  | None => inl (FileNotFoundError file_path)
  | Some text =>
      match parse_csv_to_dicts text with
      | Ok records => inr records
      | Raise e => inl (Uncaught e)
      end
  end.

(** main.py 157-160: the first path that is no file, if there is one. *)
Fixpoint first_missing (fs : gmap string string) (files : list string)
    : option string :=
  match files with
  | [] => None
  | file_path :: rest =>
      if isfile fs file_path then first_missing fs rest else Some file_path
  end.

(** main.py 163-165 *)
Fixpoint read_files (fs : gmap string string) (files : list string)
    (all_employees : list Employee) : failure + list Employee :=
  match files with
  | [] => inr all_employees
  | file_path :: rest =>
      match parse_csv_file fs file_path with
      | inl f => inl f
      | inr records => read_files fs rest (all_employees ++ records)
      end
  end.

(** main, on the parsed arguments [args.files] and [args.report]. *)
Definition main (fs : gmap string string) (files : list string) (report : string)
    : failure + run :=
  match first_missing fs files with
  | Some file_path => inr (Run ["Error: File not found: " +:+ file_path] 1)
  | None =>
      match read_files fs files [] with
      | inl f => inl f
      | inr all_employees =>
          match run_report report all_employees with
          | Ok text => inr (Run [text] 0)
          | Raise (ValueError msg) => inr (Run ["Error: " +:+ msg] 1)
          | Raise e => inl (Uncaught e)
          end
      end
  end.

(** The records of one file and of the files of a command line, in its
    order. *)
Definition file_records (fs : gmap string string) (file_path : string)
    : list Employee :=
  match fs !! file_path with
  | Some text =>
      match parse_csv_to_dicts text with Ok records => records | Raise _ => [] end
  | None => []
  end.

Definition all_records (fs : gmap string string) (files : list string)
    : list Employee :=
  concat (file_records fs <$> files).

(** Two files that spell the rate column differently, one file without
    data rows, and a file system holding them. *)
Definition it_file : string :=
  "id,name,department,hours_worked,hourly_rate
1,John Doe,IT,160,50
2,Jane Smith,IT,150,60".

Definition hr_file : string :=
  "id,name,department,hours_worked,rate
3,Bob Brown,HR,170,40".

Definition sample_fs : gmap string string :=
  {[ "it.csv" := it_file; "hr.csv" := hr_file; "empty.csv" := "id,name" ]}.

(* ===================================================================== *)
(** * Properties *)
(* ===================================================================== *)

Section text_facts.

Lemma split_not_nil sep s : Text.split sep s ≠ [].
Proof.
  destruct s as [|c s]; simpl; [done|].
  case_decide; [done|]. by destruct (Text.split sep s).
Qed.

Lemma read_csv_headers_not_nil text : (read_csv text).1 ≠ [].
Proof.
  unfold read_csv.
  destruct (Text.split newline (Text.strip text)) as [|first rest] eqn:E.
  - by apply split_not_nil in E.
  - simpl. apply split_not_nil.
Qed.

Lemma normalize_header_cases h :
  ((h ∈ ["hourly_rate"; "rate"; "salary"]) ∧ normalize_header h = "hourly_rate")
  ∨ ((h ∉ ["hourly_rate"; "rate"; "salary"]) ∧ normalize_header h = h).
Proof. unfold normalize_header. case_decide; auto. Qed.

Lemma normalize_headers_fmap headers :
  normalize_headers headers = normalize_header <$> headers.
Proof.
  unfold normalize_headers.
  assert (∀ acc, foldl (λ nh h, nh ++ [normalize_header h]) acc headers
                 = acc ++ (normalize_header <$> headers)) as H.
  { induction headers as [|h hs IH]; intros acc; simpl.
    - by rewrite app_nil_r.
    - rewrite IH. by rewrite <- app_assoc. }
  apply (H []).
Qed.

End text_facts.

Section record_facts.

Lemma store_cell_insert key value (e : Employee) :
  store_cell key value e = <[key := cell_value key value]> e.
Proof.
  unfold store_cell, cell_value. case_decide; [|done].
  by destruct (Float.of_string value).
Qed.

Lemma store_cells_snoc (e : Employee) cells key value :
  store_cells e (cells ++ [(key, value)])
  = <[key := cell_value key value]> (store_cells e cells).
Proof. unfold store_cells. rewrite foldl_snoc. apply store_cell_insert. Qed.

Lemma store_cells_cons (e : Employee) cells key value :
  store_cells e ((key, value) :: cells)
  = store_cells (<[key := cell_value key value]> e) cells.
Proof. unfold store_cells. simpl. by rewrite store_cell_insert. Qed.

(** A key that no cell carries keeps its entry. *)
Lemma store_cells_lookup_other (e : Employee) cells key :
  key ∉ cells.*1 → store_cells e cells !! key = e !! key.
Proof.
  revert e. induction cells as [|[k v] cells IH]; intros e Hk; [done|].
  rewrite store_cells_cons. rewrite fmap_cons in Hk.
  apply not_elem_of_cons in Hk as [Hne Hk].
  rewrite IH; [|done]. by rewrite lookup_insert_ne.
Qed.

(** The last cell that carries a key decides its entry. *)
Lemma store_cells_lookup_last (e : Employee) cells j key value :
  cells !! j = Some (key, value) →
  (∀ j' kv, (j < j')%nat → cells !! j' = Some kv → kv.1 ≠ key) →
  store_cells e cells !! key = Some (cell_value key value).
Proof.
  revert e j. induction cells as [|[k v] cells IH]; intros e j Hj Hlast; [done|].
  rewrite store_cells_cons. destruct j as [|j]; simpl in Hj.
  - injection Hj as -> ->.
    rewrite store_cells_lookup_other; [by rewrite lookup_insert_eq|].
    intros Hin. apply list_elem_of_fmap in Hin as [kv [Hkv Hin]].
    apply list_elem_of_lookup in Hin as [j' Hj'].
    by apply (Hlast (S j') kv); [lia| |].
  - apply (IH _ j); [done|]. intros j' kv Hlt Hj'.
    apply (Hlast (S j') kv); [lia|done].
Qed.

Lemma store_cells_dom (e : Employee) cells :
  dom (store_cells e cells) = dom e ∪ list_to_set cells.*1.
Proof.
  revert e. induction cells as [|[k v] cells IH]; intros e.
  - simpl. set_solver.
  - rewrite store_cells_cons, IH, dom_insert_L. set_solver.
Qed.

Lemma size_union_singleton_le (x : string) (X : gset string) :
  (size ({[x]} ∪ X) ≤ S (size X))%nat.
Proof.
  rewrite size_union_alt, size_singleton.
  assert (size (X ∖ {[x]}) ≤ size X)%nat by (apply subseteq_size; set_solver).
  lia.
Qed.

Lemma size_list_to_set_le (l : list string) :
  (size (list_to_set l : gset string) ≤ length l)%nat.
Proof.
  induction l as [|x l IH].
  - rewrite list_to_set_nil, size_empty. done.
  - rewrite list_to_set_cons. cbn [length].
    pose proof (size_union_singleton_le x (list_to_set l)). lia.
Qed.

(** Two positions with the same key leave fewer keys than positions. *)
Lemma size_list_to_set_lt (l : list string) i j k :
  (i < j)%nat → l !! i = Some k → l !! j = Some k →
  (size (list_to_set l : gset string) < length l)%nat.
Proof.
  revert i j. induction l as [|x l IH]; intros i j Hij Hi Hj; [done|].
  destruct j as [|j]; [lia|]. rewrite list_to_set_cons. cbn [length].
  destruct i as [|i].
  - injection Hi as ->.
    assert (k ∈ l) as Hin by (eapply list_elem_of_lookup_2; exact Hj).
    assert ({[k]} ∪ list_to_set l = (list_to_set l : gset string)) as ->
      by set_solver.
    pose proof (size_list_to_set_le l). lia.
  - pose proof (IH i j ltac:(lia) Hi Hj).
    pose proof (size_union_singleton_le x (list_to_set l)). lia.
Qed.

End record_facts.

Section parser_facts.

Lemma fill_employee_ok nh i row (e : Employee) :
  (i + length row ≤ length nh)%nat →
  fill_employee nh i row e = Ok (store_cells e (zip (drop i nh) row)).
Proof.
  revert i e. induction row as [|value row IH]; intros i e Hlen.
  - by destruct (drop i nh).
  - cbn [fill_employee length] in *.
    destruct (lookup_lt_is_Some_2 nh i) as [key Hkey]; [lia|].
    unfold index. rewrite Hkey. cbn.
    rewrite IH by lia.
    rewrite (drop_S _ _ _ Hkey). cbn [zip zip_with].
    by rewrite store_cells_cons, store_cell_insert.
Qed.

Lemma rows_loop_ok headers data acc :
  rows_loop headers (normalize_headers headers) data acc
  = Ok (acc ++ (record_of headers
                  <$> filter (λ row, length row = length headers) data)).
Proof.
  revert acc. induction data as [|row data IH]; intros acc.
  - cbn. by rewrite app_nil_r.
  - cbn [rows_loop]. rewrite filter_cons.
    destruct (decide (length row = length headers)) as [Hw|Hw].
    + rewrite decide_False by (intros Hne; by apply Hne).
      rewrite fill_employee_ok
        by (rewrite normalize_headers_fmap, length_fmap; simpl; lia).
      cbn. rewrite IH, <- app_assoc. unfold record_of.
      by rewrite normalize_headers_fmap.
    + rewrite decide_True by done. apply IH.
Qed.

Lemma parse_csv_to_dicts_ok text :
  parse_csv_to_dicts text
  = Ok (record_of (read_csv text).1
          <$> filter (λ row, length row = length (read_csv text).1)
                     (read_csv text).2).
Proof.
  unfold parse_csv_to_dicts.
  pose proof (read_csv_headers_not_nil text) as Hne.
  destruct (read_csv text) as [headers data]. simpl in *.
  destruct headers as [|h hs]; [done|]. destruct data as [|row data]; [done|].
  by rewrite rows_loop_ok.
Qed.

Lemma record_of_lookup headers row i header value :
  width_ok headers row →
  headers !! i = Some header → row !! i = Some value →
  (∀ j header', (i < j)%nat → headers !! j = Some header' →
     normalize_header header' ≠ normalize_header header) →
  record_of headers row !! normalize_header header
  = Some (cell_value (normalize_header header) value).
Proof.
  intros Hw Hi Hv Hlast. unfold record_of.
  apply (store_cells_lookup_last _ _ i).
  - apply lookup_zip_with_Some. exists (normalize_header header), value.
    by rewrite list_lookup_fmap, Hi.
  - intros j [k v] Hlt Hj.
    apply lookup_zip_with_Some in Hj as (k' & v' & [= <- <-] & Hk & _).
    rewrite list_lookup_fmap in Hk.
    destruct (headers !! j) as [h'|] eqn:Hh'; [|done].
    injection Hk as <-. simpl. by apply (Hlast j).
Qed.

Lemma record_of_dom headers row :
  width_ok headers row →
  dom (record_of headers row) = list_to_set (normalize_header <$> headers).
Proof.
  intros Hw. unfold record_of. rewrite store_cells_dom, dom_empty_L, fst_zip.
  - set_solver.
  - rewrite length_fmap. unfold width_ok in Hw. lia.
Qed.

Lemma store_cells_parsed (e : Employee) cells :
  parsed_employee e → parsed_employee (store_cells e cells).
Proof.
  revert e. induction cells as [|[k v] cells IH]; intros e He; [done|].
  rewrite store_cells_cons. apply IH. intros key w.
  destruct (decide (k = key)) as [->|Hne].
  - rewrite lookup_insert_eq. intros [= <-].
    unfold parsed_value, cell_value. case_decide; [|done].
    by destruct (Float.of_string v).
  - rewrite lookup_insert_ne by done. apply He.
Qed.

Lemma record_of_parsed headers row : parsed_employee (record_of headers row).
Proof. apply store_cells_parsed. intros key v. by rewrite lookup_empty. Qed.

Lemma parse_csv_to_dicts_parsed text records :
  parse_csv_to_dicts text = Ok records → Forall parsed_employee records.
Proof.
  rewrite parse_csv_to_dicts_ok. intros [= <-].
  apply Forall_fmap, Forall_forall. intros row _. apply record_of_parsed.
Qed.

End parser_facts.


(* ===================================================================== *)
(** ** The embedding on the inputs of the repository's tests *)
(* ===================================================================== *)

(** test_read_csv *)
Example read_csv_two_rows :
  read_csv "id,name,department,hours_worked,hourly_rate
1,John Doe,IT,160,50
2,Jane Smith,HR,150,60"
  = (["id"; "name"; "department"; "hours_worked"; "hourly_rate"],
     [["1"; "John Doe"; "IT"; "160"; "50"]; ["2"; "Jane Smith"; "HR"; "150"; "60"]]).
Proof. reflexivity. Qed.

(** test_parse_csv_to_dicts_normalize_rate_column: 50.0 under hourly_rate. *)
Example parse_rate_column :
  (λ r, r !! "hourly_rate") <$> (match parse_csv_to_dicts "id,name,department,hours_worked,rate
1,John Doe,IT,160,50" with Ok l => l | Raise _ => [] end)
  = [Some (VFloat (Float.nearest_of_Z 50))].
Proof. vm_compute. reflexivity. Qed.

(** test_parse_csv_to_dicts_malformed_row: the short row is dropped. *)
Example parse_malformed_row :
  (λ r, r !! "name") <$> (match parse_csv_to_dicts "id,name,department,hours_worked,hourly_rate
1,John Doe,IT,160
2,Jane Smith,HR,150,60" with Ok l => l | Raise _ => [] end)
  = [Some (VStr "Jane Smith")].
Proof. vm_compute. reflexivity. Qed.

(** [float] and the [.0f] format on some texts and values. *)
Example float_of_string_samples :
  Float.of_string <$> ["160"; " 1_0.5e1 "; "-0.0"; "inf"; "abc"; ""; "1e"; "12,5"; "0x10"]
  = [Some (Float.nearest_of_Z 160); Some (Float.nearest_of_Z 105);
     Some (S754_zero true); Some (S754_infinity false);
     None; None; None; None; None].
Proof. vm_compute. reflexivity. Qed.

(** The bound of [Float.of_int] is where rounding reaches the infinity. *)
Example of_int_limit :
  Float.of_int (Float.int_limit - 1) = Ok (S754_finite false (2 ^ 53 - 1) 971)
  ∧ Float.nearest_of_Z Float.int_limit = S754_infinity false
  ∧ Float.of_int Float.int_limit = Raise OverflowError.
Proof. vm_compute. done. Qed.

Example format_f0_samples :
  Float.format_f0 <$> [S754_finite false 1 (-1); S754_finite false 3 (-1);
                       S754_finite false 5 (-1); S754_finite true 1 (-2);
                       Float.nearest_of_Z 8000]
  = ["0"; "2"; "2"; "-0"; "8000"].
Proof. vm_compute. reflexivity. Qed.

(* ===================================================================== *)
(** ** The tabular parser *)
(* ===================================================================== *)

(** C1 (as the code behaves). A text that strips to nothing does not give
    the empty table: [split] returns one empty line, never no line, so the
    guard [if not content] of read_csv is never taken and the headers are
    the one-element list holding the empty text. The rows are empty. *)
Theorem read_csv_blank_text (text : string) :
  Text.strip text = "" → read_csv text = ([""], []).
Proof. intros H. unfold read_csv. by rewrite H. Qed.

Lemma read_csv_blank_text_witness :
  Text.strip "" = "" ∧ read_csv "" = ([""], []).
Proof. split; [reflexivity | apply (read_csv_blank_text ""); reflexivity]. Defined.

(** C2. [normalize_header] is a total function; it is idempotent; its
    result is "hourly_rate" exactly for the three aliases "hourly_rate",
    "rate" and "salary"; every other header is returned unchanged. *)
Theorem normalize_header_idempotent_aliases (h : string) :
  normalize_header (normalize_header h) = normalize_header h
  ∧ (normalize_header h = "hourly_rate"
     ↔ h = "hourly_rate" ∨ h = "rate" ∨ h = "salary")
  ∧ (¬ (h = "hourly_rate" ∨ h = "rate" ∨ h = "salary") → normalize_header h = h).
Proof.
  assert ((h ∈ ["hourly_rate"; "rate"; "salary"])
          ↔ h = "hourly_rate" ∨ h = "rate" ∨ h = "salary") as Hmem.
  { rewrite !elem_of_cons, elem_of_nil. tauto. }
  destruct (normalize_header_cases h) as [[Hin Heq]|[Hnin Heq]]; rewrite Heq.
  - split; [done|]. split; [by rewrite <- Hmem|]. intros Hn. by apply Hmem in Hin.
  - split; [done|]. split; [|done]. rewrite <- Hmem. split; [|done].
    intros ->. exfalso. apply Hnin. by left.
Qed.

(** C3. parse_csv_to_dicts raises nothing, and its records are, in order,
    one per row that has as many cells as there are headers (the other rows
    give no record). Such a record has exactly the normalized header names
    as keys, and under the normalized name of column [i] it holds the
    converted cell [i] of the row, unless a later column has the same
    normalized name. *)
Theorem parse_csv_to_dicts_row_width_filter (text : string) :
  let headers := (read_csv text).1 in
  let data := (read_csv text).2 in
  ∃ records,
    parse_csv_to_dicts text = Ok records ∧
    Forall2 (λ row (rec : Employee),
       dom rec = list_to_set (normalize_header <$> headers) ∧
       ∀ i header value,
         headers !! i = Some header → row !! i = Some value →
         (∀ j header', (i < j)%nat → headers !! j = Some header' →
            normalize_header header' ≠ normalize_header header) →
         rec !! normalize_header header
         = Some (cell_value (normalize_header header) value))
      (filter (width_ok headers) data) records.
Proof.
  intros headers data. eexists. split; [apply parse_csv_to_dicts_ok|].
  fold headers data. apply Forall2_fmap_r, Forall_Forall2_diag, Forall_forall.
  intros row Hrow. apply list_elem_of_filter in Hrow as [Hw _]. split.
  - by apply record_of_dom.
  - intros i header value. by apply (record_of_lookup _ _ i).
Qed.

(** C4. In a row of the right width, a cell of a column named hours_worked
    or hourly_rate (after normalization) that [float] rejects is stored as
    the int 0: the row still gives its record, nothing is raised, the dict
    holds 0 under that name once the column is processed, and the finished
    record holds 0 there unless a later column has the same normalized
    name. *)
Theorem non_numeric_cell_stored_as_zero (text : string) row i header value :
  let headers := (read_csv text).1 in
  let data := (read_csv text).2 in
  let key := normalize_header header in
  row ∈ data → width_ok headers row →
  headers !! i = Some header → row !! i = Some value →
  key ∈ ["hours_worked"; "hourly_rate"] →
  Float.of_string value = None →
  ∃ records rec after_i,
    parse_csv_to_dicts text = Ok records
    ∧ fill_employee (normalize_headers headers) 0 row ∅ = Ok rec
    ∧ rec ∈ records
    ∧ fill_employee (normalize_headers headers) 0 (take (S i) row) ∅ = Ok after_i
    ∧ after_i !! key = Some (VInt 0)
    ∧ ((∀ j header', (i < j)%nat → headers !! j = Some header' →
          normalize_header header' ≠ key) →
       rec !! key = Some (VInt 0)).
Proof.
  intros headers data key Hrow Hw Hi Hv Hkey Hfloat.
  assert (cell_value key value = VInt 0) as Hcell.
  { unfold cell_value. rewrite decide_True by done. by rewrite Hfloat. }
  assert (length (normalize_headers headers) = length headers) as Hlen
    by (by rewrite normalize_headers_fmap, length_fmap).
  exists (record_of headers <$> filter (width_ok headers) data),
    (record_of headers row),
    (store_cells ∅ (zip (normalize_header <$> headers) (take (S i) row))).
  split; [apply parse_csv_to_dicts_ok|]. split.
  { rewrite fill_employee_ok by (unfold width_ok in Hw; simpl; lia).
    unfold record_of. by rewrite normalize_headers_fmap. }
  split.
  { apply list_elem_of_fmap. exists row. split; [done|].
    by apply list_elem_of_filter. }
  split.
  { rewrite fill_employee_ok.
    - by rewrite normalize_headers_fmap.
    - rewrite length_take, Hlen. unfold width_ok in Hw. cbn [Nat.add]. lia. }
  split.
  - rewrite <- Hcell. apply (store_cells_lookup_last _ _ i).
    + apply lookup_zip_with_Some. exists key, value. split; [done|].
      rewrite list_lookup_fmap, Hi. split; [done|].
      rewrite lookup_take_lt by lia. done.
    + intros j kv Hlt Hj. apply lookup_zip_with_Some in Hj as (k' & v' & _ & _ & Hj).
      apply lookup_take_Some in Hj as [_ Hj]. lia.
  - intros Hlast. rewrite <- Hcell. by apply (record_of_lookup _ _ i).
Qed.

Lemma non_numeric_cell_stored_as_zero_witness :
  ∃ records rec after_i,
    parse_csv_to_dicts "name,hours_worked,rate
Ann,many,12" = Ok records
    ∧ fill_employee ["name"; "hours_worked"; "hourly_rate"] 0 ["Ann"; "many"; "12"] ∅
      = Ok rec
    ∧ rec ∈ records
    ∧ fill_employee ["name"; "hours_worked"; "hourly_rate"] 0 ["Ann"; "many"] ∅
      = Ok after_i
    ∧ after_i !! "hours_worked" = Some (VInt 0)
    ∧ ((∀ j header', (1 < j)%nat →
          ["name"; "hours_worked"; "rate"] !! j = Some header' →
          normalize_header header' ≠ "hours_worked") →
       rec !! "hours_worked" = Some (VInt 0)).
Proof.
  apply (non_numeric_cell_stored_as_zero "name,hours_worked,rate
Ann,many,12" ["Ann"; "many"; "12"] 1 "hours_worked" "many").
  - vm_compute. apply list_elem_of_here.
  - reflexivity.
  - reflexivity.
  - reflexivity.
  - vm_compute. apply list_elem_of_here.
  - vm_compute. reflexivity.
Defined.

(** C10. When two columns have the same normalized name, every row of the
    right width still gives exactly one record; the record holds, under the
    shared name, the converted cell of the rightmost such column (the
    cells of the earlier ones are overwritten), and it has fewer keys than
    the file has columns. *)
Theorem colliding_headers_rightmost_wins (text : string) i j hi hj :
  let headers := (read_csv text).1 in
  let data := (read_csv text).2 in
  (i < j)%nat →
  headers !! i = Some hi → headers !! j = Some hj →
  normalize_header hi = normalize_header hj →
  (∀ j' h', (j < j')%nat → headers !! j' = Some h' →
     normalize_header h' ≠ normalize_header hj) →
  ∃ records,
    parse_csv_to_dicts text = Ok records ∧
    Forall2 (λ row (rec : Employee),
       (∃ value, row !! j = Some value
                 ∧ rec !! normalize_header hj
                   = Some (cell_value (normalize_header hj) value))
       ∧ (size rec < length headers)%nat)
      (filter (width_ok headers) data) records.
Proof.
  intros headers data Hij Hi Hj Hsame Hlast.
  eexists. split; [apply parse_csv_to_dicts_ok|]. fold headers data.
  apply Forall2_fmap_r, Forall_Forall2_diag, Forall_forall.
  intros row Hrow. apply list_elem_of_filter in Hrow as [Hw _]. split.
  - destruct (lookup_lt_is_Some_2 row j) as [value Hvalue].
    { unfold width_ok in Hw. rewrite Hw. by eapply lookup_lt_Some. }
    exists value. split; [done|]. by apply (record_of_lookup _ _ j).
  - rewrite <- size_dom, record_of_dom by done.
    rewrite <- (length_fmap normalize_header headers).
    apply (size_list_to_set_lt _ i j (normalize_header hj)); [done|..].
    + by rewrite list_lookup_fmap, Hi, <- Hsame.
    + by rewrite list_lookup_fmap, Hj.
Qed.

Lemma colliding_headers_rightmost_wins_witness :
  ∃ records,
    parse_csv_to_dicts "name,rate,salary
Ann,10,20" = Ok records ∧
    Forall2 (λ row (rec : Employee),
       (∃ value, row !! 2%nat = Some value
                 ∧ rec !! normalize_header "salary"
                   = Some (cell_value (normalize_header "salary") value))
       ∧ (size rec < length ["name"; "rate"; "salary"])%nat)
      (filter (width_ok ["name"; "rate"; "salary"]) [["Ann"; "10"; "20"]]) records.
Proof.
  apply (colliding_headers_rightmost_wins "name,rate,salary
Ann,10,20" 1 2 "rate" "salary").
  - lia.
  - reflexivity.
  - reflexivity.
  - reflexivity.
  - intros j' h' Hlt Hj'. apply lookup_lt_Some in Hj'. vm_compute in Hj'. lia.
Defined.

(* ===================================================================== *)
(** ** The report engine: grouping and ordering *)
(* ===================================================================== *)

Section grouping_facts.

Lemma bind_Ok {A B} (m : outcome A) (k : A → outcome B) b :
  m ≫= k = Ok b ↔ ∃ a, m = Ok a ∧ k a = Ok b.
Proof.
  destruct m as [a|e]; cbn.
  - split; [eauto|]. by intros (a' & [= <-] & ?).
  - split; [done|]. by intros (a' & ? & ?).
Qed.

Lemma in_department_cons e recs d :
  in_department (e :: recs) d
  = if decide (get_text e "department" "Unknown" = Ok d)
    then e :: in_department recs d else in_department recs d.
Proof. unfold in_department. by rewrite filter_cons. Qed.

(** What the department dict holds after the grouping loop. *)
Lemma group_by_department_lookup recs deps0 deps d :
  group_by_department recs deps0 = Ok deps →
  deps !! d
  = match deps0 !! d with
    | Some l0 => Some (l0 ++ in_department recs d)
    | None => match in_department recs d with [] => None | l => Some l end
    end.
Proof.
  revert deps0. induction recs as [|e recs IH]; intros deps0 Hg.
  - injection Hg as <-. cbn. destruct (deps0 !! d); [by rewrite app_nil_r|done].
  - cbn [group_by_department] in Hg. apply bind_Ok in Hg as (dept & Hdept & Hg).
    rewrite (IH _ Hg), in_department_cons, Hdept. clear IH Hg.
    destruct (decide (dept = d)) as [->|Hne].
    + destruct (decide (Ok d = Ok d)) as [_|]; [|done]. rewrite lookup_alter_eq.
      destruct (decide (is_Some (deps0 !! d))) as [[l0 Hl0]|Hnone].
      * rewrite Hl0. cbn. by rewrite <- app_assoc.
      * rewrite lookup_insert_eq. cbn.
        assert (deps0 !! d = None) as -> by (by apply eq_None_not_Some).
        done.
    + destruct (decide (Ok dept = Ok d)) as [[= ?]|_]; [done|].
      rewrite lookup_alter_ne by done.
      destruct (decide (is_Some (deps0 !! dept))); [done|].
      by rewrite lookup_insert_ne.
Qed.

Lemma group_by_department_total recs deps0 :
  Forall (λ e, ∃ d, get_text e "department" "Unknown" = Ok d) recs →
  ∃ deps, group_by_department recs deps0 = Ok deps.
Proof.
  revert deps0. induction recs as [|e recs IH]; intros deps0 Hall.
  - by eexists.
  - apply Forall_cons in Hall as [[d Hd] Hall]. cbn [group_by_department].
    rewrite Hd. cbn. apply IH, Hall.
Qed.

Global Instance item_le_trans : Transitive item_le.
Proof. intros x y z. unfold item_le. apply transitivity. Qed.

Global Instance item_le_total : Total item_le.
Proof. intros x y. unfold item_le. apply total, _. Qed.

Lemma sorted_items_perm deps : sorted_items deps ≡ₚ map_to_list deps.
Proof. apply merge_sort_Permutation. Qed.

Lemma elem_of_sorted_items deps k l :
  (k, l) ∈ sorted_items deps ↔ deps !! k = Some l.
Proof. rewrite sorted_items_perm. apply elem_of_map_to_list. Qed.

Lemma strictly_sorted_keys (items : list (string * list Employee)) :
  StronglySorted item_le items → NoDup items.*1 →
  StronglySorted strictly_before items.*1.
Proof.
  induction 1 as [|x items Hs IH Hx]; intros Hnd; [constructor|].
  rewrite fmap_cons in *. apply NoDup_cons in Hnd as [Hnin Hnd].
  constructor; [by apply IH|].
  apply Forall_fmap, Forall_forall. intros y Hy. split.
  - by apply (proj1 (Forall_forall _ _) Hx).
  - intros Heq. apply Hnin. rewrite Heq. apply list_elem_of_fmap. eauto.
Qed.

Lemma sorted_items_keys_sorted deps :
  StronglySorted strictly_before (sorted_items deps).*1.
Proof.
  apply strictly_sorted_keys.
  - apply StronglySorted_merge_sort; apply _.
  - rewrite sorted_items_perm. apply NoDup_fst_map_to_list.
Qed.

(** The sorted items of the grouped records: the departments that occur,
    each with its records in arrival order. *)
Lemma sorted_items_grouped recs deps :
  group_by_department recs ∅ = Ok deps →
  sorted_items deps
  = (λ d, (d, in_department recs d)) <$> (sorted_items deps).*1
  ∧ ∀ d, d ∈ (sorted_items deps).*1 ↔ in_department recs d ≠ [].
Proof.
  intros Hg.
  assert (∀ d l, (d, l) ∈ sorted_items deps
                 ↔ l = in_department recs d ∧ in_department recs d ≠ []) as Hitems.
  { intros d l. rewrite elem_of_sorted_items, (group_by_department_lookup _ _ _ d Hg).
    rewrite lookup_empty. destruct (in_department recs d); naive_solver. }
  split.
  - rewrite <- list_fmap_compose.
    rewrite <- (list_fmap_id (sorted_items deps)) at 1.
    apply Forall_fmap_ext_1, Forall_forall. intros [d l] Hin.
    apply Hitems in Hin as [-> _]. done.
  - intros d. rewrite list_elem_of_fmap. split.
    + intros ([d' l] & -> & Hin). by apply Hitems in Hin as [_ ?].
    + intros Hne. exists (d, in_department recs d). split; [done|].
      by apply Hitems.
Qed.

End grouping_facts.

(* ===================================================================== *)
(** ** The report engine: the loops *)
(* ===================================================================== *)

Section loop_facts.

Lemma employee_row_values e line h p :
  employee_row e = Ok (line, h, p) →
  h = hours_of e ∧ py_mul (hours_of e) (rate_of e) = Ok p.
Proof.
  unfold employee_row. fold (hours_of e) (rate_of e). intros H.
  apply bind_Ok in H as (name & _ & H). apply bind_Ok in H as (payout & Hp & H).
  apply bind_Ok in H as (hs & _ & H). apply bind_Ok in H as (rs & _ & H).
  apply bind_Ok in H as (ps & _ & H). by injection H as _ <- <-.
Qed.

Lemma employees_loop_inv emps st st' :
  employees_loop st emps = Ok st' →
  ∃ rows : list (string * pyval * pyval),
    Forall2 (λ e row, employee_row e = Ok row) emps rows
    ∧ report_lines st' = report_lines st ++ rows.*1.*1
    ∧ py_sum_from (total_hours st) rows.*1.*2 = Ok (total_hours st')
    ∧ py_sum_from (total_payout st) rows.*2 = Ok (total_payout st').
Proof.
  revert st. induction emps as [|e emps IH]; intros st H.
  - injection H as <-. exists []. by rewrite app_nil_r.
  - cbn [employees_loop] in H. apply bind_Ok in H as (st1 & Hstep & H).
    apply IH in H as (rows & Hrows & Hlines & Hh & Hp).
    unfold employee_step in Hstep.
    apply bind_Ok in Hstep as ([[line h] p] & Hrow & Hstep).
    apply bind_Ok in Hstep as (dh & Hdh & Hstep).
    apply bind_Ok in Hstep as (dp & Hdp & Hstep).
    injection Hstep as <-. cbn in *.
    exists ((line, h, p) :: rows). split; [by constructor|].
    rewrite Hlines, <- app_assoc. split; [done|].
    cbn. by rewrite Hdh, Hdp.
Qed.

Lemma employees_loop_ok emps st rows h' p' :
  Forall2 (λ e row, employee_row e = Ok row) emps rows →
  py_sum_from (total_hours st) rows.*1.*2 = Ok h' →
  py_sum_from (total_payout st) rows.*2 = Ok p' →
  employees_loop st emps = Ok (Totals (report_lines st ++ rows.*1.*1) h' p').
Proof.
  intros Hrows. revert st. induction Hrows as [|e [[line h] p] emps rows Hrow _ IH];
    intros st Hh Hp.
  - cbn in *. injection Hh as <-. injection Hp as <-.
    rewrite app_nil_r. by destruct st.
  - cbn in Hh, Hp. apply bind_Ok in Hh as (dh & Hdh & Hh).
    apply bind_Ok in Hp as (dp & Hdp & Hp).
    cbn [employees_loop]. unfold employee_step. rewrite Hrow. cbn.
    rewrite Hdh, Hdp. cbn.
    rewrite (IH (Totals (report_lines st ++ [line]) dh dp) Hh Hp).
    cbn. by rewrite <- app_assoc.
Qed.

Lemma department_step_inv st item st' :
  department_step st item = Ok st' →
  ∃ sec, section_of item sec
    ∧ report_lines st' = report_lines st ++ sec.1.1
    ∧ py_add (total_hours st) sec.1.2 = Ok (total_hours st')
    ∧ py_add (total_payout st) sec.2 = Ok (total_payout st').
Proof.
  destruct item as [dept emps]. unfold department_step. intros H.
  apply bind_Ok in H as (d & Hd & H). apply bind_Ok in H as (line & Hline & H).
  apply bind_Ok in H as (gh & Hgh & H). apply bind_Ok in H as (gp & Hgp & H).
  injection H as <-. cbn.
  apply employees_loop_inv in Hd as (rows & Hrows & Hlines & Hh & Hp). cbn in *.
  exists (dept :: rows.*1.*1 ++ [line], total_hours d, total_payout d). cbn.
  split; [by exists rows, line|].
  rewrite Hlines, <- !app_assoc. done.
Qed.

Lemma department_step_ok st item sec gh gp :
  section_of item sec →
  py_add (total_hours st) sec.1.2 = Ok gh →
  py_add (total_payout st) sec.2 = Ok gp →
  department_step st item = Ok (Totals (report_lines st ++ sec.1.1) gh gp).
Proof.
  destruct item as [dept emps], sec as [[lines sh] sp]. unfold section_of. cbn.
  intros (rows & subtotal & Hrows & Hh & Hp & Hsub & ->) Hgh Hgp. cbn in *.
  rewrite (employees_loop_ok emps _ rows sh sp); [|done..]. cbn.
  rewrite Hsub. cbn. rewrite Hgh, Hgp. cbn. by rewrite <- !app_assoc.
Qed.

Lemma departments_loop_inv items st st' :
  departments_loop st items = Ok st' →
  ∃ secs : list (list string * pyval * pyval),
    Forall2 section_of items secs
    ∧ report_lines st' = report_lines st ++ concat secs.*1.*1
    ∧ py_sum_from (total_hours st) secs.*1.*2 = Ok (total_hours st')
    ∧ py_sum_from (total_payout st) secs.*2 = Ok (total_payout st').
Proof.
  revert st. induction items as [|item items IH]; intros st H.
  - injection H as <-. exists []. by rewrite app_nil_r.
  - cbn [departments_loop] in H. apply bind_Ok in H as (st1 & Hstep & H).
    apply IH in H as (secs & Hsecs & Hlines & Hh & Hp).
    apply department_step_inv in Hstep as (sec & Hsec & Hl1 & Hh1 & Hp1).
    exists (sec :: secs). split; [by constructor|].
    rewrite Hlines, Hl1, <- app_assoc. split; [done|].
    cbn. by rewrite Hh1, Hp1.
Qed.

Lemma departments_loop_ok items st secs gh gp :
  Forall2 section_of items secs →
  py_sum_from (total_hours st) secs.*1.*2 = Ok gh →
  py_sum_from (total_payout st) secs.*2 = Ok gp →
  departments_loop st items
  = Ok (Totals (report_lines st ++ concat secs.*1.*1) gh gp).
Proof.
  intros Hsecs. revert st. induction Hsecs as [|item sec items secs Hsec _ IH];
    intros st Hh Hp.
  - cbn in *. injection Hh as <-. injection Hp as <-.
    rewrite app_nil_r. by destruct st.
  - cbn in Hh, Hp. apply bind_Ok in Hh as (dh & Hdh & Hh).
    apply bind_Ok in Hp as (dp & Hdp & Hp).
    cbn [departments_loop]. rewrite (department_step_ok _ _ _ _ _ Hsec Hdh Hdp). cbn.
    rewrite (IH (Totals (report_lines st ++ sec.1.1) dh dp) Hh Hp).
    cbn. by rewrite <- app_assoc.
Qed.

End loop_facts.

(* ===================================================================== *)
(** ** The report engine on the records of the parser: nothing is raised *)
(* ===================================================================== *)

Section parsed_facts.

(** Run one step of a computation whose first action is known to return. *)
Ltac bind_step H := rewrite H; cbn [mbind outcome_bind].

Lemma parsed_value_number key v :
  key ∈ ["hours_worked"; "hourly_rate"] → parsed_value key v → parsed_number v.
Proof. unfold parsed_value. intros Hk. by rewrite decide_True. Qed.

Lemma parsed_value_text key v :
  key ∉ ["hours_worked"; "hourly_rate"] → parsed_value key v → ∃ s, v = VStr s.
Proof.
  unfold parsed_value. intros Hk. rewrite decide_False by done.
  destruct v; [eauto|done..].
Qed.

Lemma parsed_get_text e key default :
  parsed_employee e → key ∉ ["hours_worked"; "hourly_rate"] →
  ∃ s, get_text e key default = Ok s.
Proof.
  intros He Hk. unfold get_text. destruct (e !! key) as [v|] eqn:Hv; [|eauto].
  destruct (parsed_value_text key v Hk (He _ _ Hv)) as [s ->]. eauto.
Qed.

Lemma parsed_department e :
  parsed_employee e → ∃ d, get_text e "department" "Unknown" = Ok d.
Proof.
  intros He. apply parsed_get_text; [done|].
  rewrite !elem_of_cons, elem_of_nil. intros [?|[?|[]]]; discriminate.
Qed.

Lemma parsed_hours_rate e :
  parsed_employee e → parsed_number (hours_of e) ∧ parsed_number (rate_of e).
Proof.
  intros He. unfold hours_of, rate_of. split.
  - destruct (e !! "hours_worked") as [v|] eqn:Hv; [|done].
    apply (parsed_value_number "hours_worked"); [|by apply He]. by left.
  - destruct (e !! "hourly_rate") as [v|] eqn:Hv; [|done].
    apply (parsed_value_number "hourly_rate"); [|by apply He]. right. by left.
Qed.

Lemma of_int_zero : Float.of_int 0 = Ok (S754_zero false).
Proof. reflexivity. Qed.

Lemma py_mul_parsed a b :
  parsed_number a → parsed_number b → ∃ c, py_mul a b = Ok c ∧ parsed_number c.
Proof.
  destruct a as [|[]|], b as [|[]|]; try done; intros _ _;
    cbn -[Float.of_int]; rewrite ?of_int_zero; cbn; (eexists; split; [reflexivity|done]).
Qed.

Lemma py_add_parsed a b :
  parsed_number a → parsed_number b → ∃ c, py_add a b = Ok c ∧ parsed_number c.
Proof.
  destruct a as [|[]|], b as [|[]|]; try done; intros _ _;
    cbn -[Float.of_int]; rewrite ?of_int_zero; cbn; (eexists; split; [reflexivity|done]).
Qed.

Lemma format_f_parsed w v : parsed_number v → ∃ s, format_f w v = Ok s.
Proof.
  destruct v as [|[]|]; try done; intros _;
    cbn -[Float.of_int]; rewrite ?of_int_zero; cbn; eauto.
Qed.

Lemma employee_row_parsed e :
  parsed_employee e →
  ∃ row, employee_row e = Ok row ∧ parsed_number row.1.2 ∧ parsed_number row.2.
Proof.
  intros He. unfold employee_row. fold (hours_of e) (rate_of e).
  destruct (parsed_get_text e "name" "Unknown" He) as [name Hname].
  { rewrite !elem_of_cons, elem_of_nil. intros [?|[?|[]]]; discriminate. }
  destruct (parsed_hours_rate e He) as [Hh Hr].
  destruct (py_mul_parsed _ _ Hh Hr) as (p & Hmul & Hp).
  destruct (format_f_parsed 8 _ Hh) as [hs Hhs].
  destruct (format_f_parsed 8 _ Hr) as [rs Hrs].
  destruct (format_f_parsed 9 _ Hp) as [ps Hps].
  bind_step Hname. bind_step Hmul. bind_step Hhs. bind_step Hrs. bind_step Hps.
  eauto.
Qed.

Lemma py_sum_from_parsed acc vs :
  parsed_number acc → Forall parsed_number vs →
  ∃ r, py_sum_from acc vs = Ok r ∧ parsed_number r.
Proof.
  intros Hacc Hvs. revert acc Hacc. induction Hvs as [|v vs Hv _ IH]; intros acc Hacc.
  - cbn. eauto.
  - cbn. destruct (py_add_parsed _ _ Hacc Hv) as (c & -> & Hc). cbn. by apply IH.
Qed.

Lemma rows_parsed emps :
  Forall parsed_employee emps →
  ∃ rows : list (string * pyval * pyval),
    Forall2 (λ e row, employee_row e = Ok row) emps rows
    ∧ Forall parsed_number rows.*1.*2 ∧ Forall parsed_number rows.*2.
Proof.
  induction 1 as [|e emps He _ (rows & Hrows & Hh & Hp)].
  - exists []. by repeat constructor.
  - destruct (employee_row_parsed e He) as (row & Hrow & Hrh & Hrp).
    exists (row :: rows). split; [by constructor|]. split; by constructor.
Qed.

Lemma section_parsed dept emps :
  Forall parsed_employee emps →
  ∃ sec, section_of (dept, emps) sec
         ∧ parsed_number sec.1.2 ∧ parsed_number sec.2.
Proof.
  intros Hemps. destruct (rows_parsed emps Hemps) as (rows & Hrows & Hh & Hp).
  destruct (py_sum_from_parsed (VInt 0) _ I Hh) as (sh & Hsh & Hshp).
  destruct (py_sum_from_parsed (VInt 0) _ I Hp) as (sp & Hsp & Hspp).
  destruct (format_f_parsed 8 _ Hshp) as [hs Hhs].
  destruct (format_f_parsed 8 _ Hspp) as [ps Hps].
  eexists (dept :: rows.*1.*1 ++ [_], sh, sp). split; [|done].
  exists rows. eexists. split; [done|]. split; [done|]. split; [done|].
  split; [|done]. unfold subtotal_line. cbn. rewrite Hhs, Hps. done.
Qed.

Lemma sections_parsed (items : list (string * list Employee)) :
  Forall (λ item, Forall parsed_employee item.2) items →
  ∃ secs, Forall2 section_of items secs
          ∧ Forall parsed_number secs.*1.*2 ∧ Forall parsed_number secs.*2.
Proof.
  induction 1 as [|[dept emps] items Hitem _ (secs & Hsecs & Hh & Hp)].
  - exists []. by repeat constructor.
  - destruct (section_parsed dept emps Hitem) as (sec & Hsec & Hsh & Hsp).
    exists (sec :: secs). split; [by constructor|]. split; by constructor.
Qed.

Lemma in_department_parsed recs d :
  Forall parsed_employee recs → Forall parsed_employee (in_department recs d).
Proof.
  intros H. unfold in_department. apply Forall_forall. intros e He.
  apply list_elem_of_filter in He as [_ He].
  by apply (proj1 (Forall_forall _ _) H).
Qed.

Lemma payout_totals_parsed recs :
  Forall parsed_employee recs →
  ∃ st, payout_totals recs = Ok st
        ∧ parsed_number (total_hours st) ∧ parsed_number (total_payout st).
Proof.
  intros Hrecs. unfold payout_totals.
  destruct (group_by_department_total recs ∅) as [deps Hdeps].
  { eapply Forall_impl; [exact Hrecs|]. intros e. apply parsed_department. }
  rewrite Hdeps. cbn.
  destruct (sorted_items_grouped recs deps Hdeps) as [Hitems _].
  destruct (sections_parsed (sorted_items deps)) as (secs & Hsecs & Hh & Hp).
  { rewrite Hitems. apply Forall_fmap, Forall_forall. intros d _. cbn.
    by apply in_department_parsed. }
  destruct (py_sum_from_parsed (VInt 0) _ I Hh) as (gh & Hgh & Hghp).
  destruct (py_sum_from_parsed (VInt 0) _ I Hp) as (gp & Hgp & Hgpp).
  rewrite (departments_loop_ok _ _ secs gh gp); [|done..]. eauto.
Qed.

Lemma generate_payout_report_parsed recs :
  Forall parsed_employee recs → ∃ report, generate_payout_report recs = Ok report.
Proof.
  intros Hrecs. destruct recs as [|e recs]; [by eexists|].
  unfold generate_payout_report.
  destruct (payout_totals_parsed _ Hrecs) as (st & -> & Hh & Hp). cbn.
  unfold total_lines.
  destruct (format_f_parsed 0 _ Hh) as [hs ->].
  destruct (format_f_parsed 0 _ Hp) as [ps ->].
  cbn. eauto.
Qed.

End parsed_facts.

(* ===================================================================== *)
(** ** The payout report *)
(* ===================================================================== *)

(** C5. On the empty list of records generate_payout_report returns, and
    does not raise, the one-line text "No data available for report.". *)
Theorem generate_payout_report_empty :
  generate_payout_report [] = Ok "No data available for report.".
Proof. reflexivity. Qed.

(** C6. For a non-empty list of records: on records as the parser builds
    them the report is produced (nothing is raised); and whenever the
    report is produced, it is the header line, then one section per
    department that occurs (a record without a department counts under
    "Unknown"), the departments strictly ascending in the order of their
    code points whatever the order of the records, then the two closing
    lines of the totals. A section is the department name, one line per
    record of the department in the order of arrival, and the subtotal
    line. *)
Theorem department_sections_sorted (employees_data : list Employee) :
  employees_data ≠ [] →
  (Forall parsed_employee employees_data →
   ∃ report, generate_payout_report employees_data = Ok report)
  ∧ ∀ report, generate_payout_report employees_data = Ok report →
    ∃ (depts : list string) (sections : list (list string)) (closing : list string),
      report = Text.join (String newline "")
                 (header_line :: concat sections ++ closing)
      ∧ (∃ st, payout_totals employees_data = Ok st
               ∧ total_lines (total_hours st) (total_payout st) = Ok closing)
      ∧ StronglySorted strictly_before depts
      ∧ (∀ d, d ∈ depts ↔ in_department employees_data d ≠ [])
      ∧ Forall2 (λ dept lines, ∃ employee_lines subtotal,
            lines = dept :: employee_lines ++ [subtotal]
            ∧ Forall2 (λ e line, ∃ hours payout,
                         employee_row e = Ok (line, hours, payout))
                (in_department employees_data dept) employee_lines)
          depts sections.
Proof.
  intros Hne. split; [apply generate_payout_report_parsed|].
  intros report Hreport.
  destruct employees_data as [|e0 recs0]; [done|].
  set (recs := e0 :: recs0) in *. unfold generate_payout_report in Hreport.
  fold recs in Hreport.
  apply bind_Ok in Hreport as (st & Hst & Hreport).
  apply bind_Ok in Hreport as (closing & Hclosing & [= <-]).
  pose proof Hst as Htotals.
  unfold payout_totals in Hst. apply bind_Ok in Hst as (deps & Hdeps & Hloop).
  apply departments_loop_inv in Hloop as (secs & Hsecs & Hlines & _ & _).
  destruct (sorted_items_grouped recs deps Hdeps) as [Hitems Hdepts].
  exists (sorted_items deps).*1, secs.*1.*1, closing.
  split; [by rewrite Hlines, <- app_assoc|].
  split; [by exists st|].
  split; [apply sorted_items_keys_sorted|]. split; [done|].
  rewrite Hitems, Forall2_fmap_l in Hsecs. rewrite !Forall2_fmap_r.
  eapply Forall2_impl; [exact Hsecs|].
  intros d [[lines sh] sp] (rows & subtotal & Hrows & _ & _ & _ & Hl). cbn in *.
  exists rows.*1.*1, subtotal. split; [done|].
  rewrite !Forall2_fmap_r.
  eapply Forall2_impl; [exact Hrows|].
  intros e [[line h] p] Hrow. cbn. eauto.
Qed.

Lemma department_sections_sorted_witness :
  (Forall parsed_employee three_records →
   ∃ report, generate_payout_report three_records = Ok report)
  ∧ ∀ report, generate_payout_report three_records = Ok report →
    ∃ (depts : list string) (sections : list (list string)) (closing : list string),
      report = Text.join (String newline "")
                 (header_line :: concat sections ++ closing)
      ∧ (∃ st, payout_totals three_records = Ok st
               ∧ total_lines (total_hours st) (total_payout st) = Ok closing)
      ∧ StronglySorted strictly_before depts
      ∧ (∀ d, d ∈ depts ↔ in_department three_records d ≠ [])
      ∧ Forall2 (λ dept lines, ∃ employee_lines subtotal,
            lines = dept :: employee_lines ++ [subtotal]
            ∧ Forall2 (λ e line, ∃ hours payout,
                         employee_row e = Ok (line, hours, payout))
                (in_department three_records dept) employee_lines)
          depts sections.
Proof. apply (department_sections_sorted three_records). discriminate. Defined.

(** C9 (as the code behaves). The report of the three records of the
    repository's test: department HR comes before IT, and the closing
    lines are "Total hours: 480" and "Total payout: $23800", but the
    payouts are right-aligned in a field of width 9 after the dollar sign,
    so the report holds "$     8000", "$     9000" and "$     6800" and
    none of "$8000", "$9000", "$6800" occurs in it. *)
Theorem payout_report_of_three_records :
  generate_payout_report three_records
  = Ok (Text.join (String newline "") three_records_lines)
  ∧ Forall (λ payout,
       Text.contains payout (Text.join (String newline "") three_records_lines)
       = false)
      ["$8000"; "$9000"; "$6800"]
  ∧ Forall (λ line, line ∈ three_records_lines)
      ["HR"; "IT"; "Total hours: 480"; "Total payout: $23800"]
  ∧ Forall (λ payout,
       Text.contains payout (Text.join (String newline "") three_records_lines)
       = true)
      ["$     8000"; "$     9000"; "$     6800"].
Proof.
  split; [vm_compute; reflexivity|].
  split; [repeat constructor|]. split; [|repeat constructor].
  unfold three_records_lines. repeat constructor; set_solver.
Qed.

(* ===================================================================== *)
(** ** binary64 on whole numbers below 2^53: sums and products are exact *)
(* ===================================================================== *)

Section float_facts.

Lemma digits2_pos_log2 p : Zpos (digits2_pos p) = Z.log2 (Zpos p) + 1.
Proof.
  assert (∀ q, digits2_pos q = Pos.size q) as Hsize.
  { induction q; simpl; congruence. }
  destruct p as [p|p|]; simpl; rewrite ?Hsize; lia.
Qed.

Lemma iter_pos_nat {A} (f : A → A) p x :
  SpecFloat.iter_pos f p x = Nat.iter (Pos.to_nat p) f x.
Proof.
  revert x. induction p as [p IH|p IH|]; intros x; cbn [SpecFloat.iter_pos].
  - rewrite !IH. replace (Pos.to_nat p~1) with (Pos.to_nat p + S (Pos.to_nat p))%nat by lia.
    rewrite Nat.iter_add. f_equal. symmetry. apply Nat.iter_succ_r.
  - rewrite !IH. replace (Pos.to_nat p~0) with (Pos.to_nat p + Pos.to_nat p)%nat by lia.
    by rewrite Nat.iter_add.
  - done.
Qed.

Lemma shr_1_double z :
  0 < z →
  shr_1 (Build_shr_record (2 * z) false false) = Build_shr_record z false false.
Proof. destruct z; [lia|done|lia]. Qed.

Lemma shr_iter_exact k m :
  0 < m →
  Nat.iter k shr_1 (Build_shr_record (m * 2 ^ Z.of_nat k) false false)
  = Build_shr_record m false false.
Proof.
  intros Hm. induction k as [|k IH].
  - simpl. by rewrite Z.mul_1_r.
  - rewrite Nat.iter_succ_r.
    replace (m * 2 ^ Z.of_nat (S k)) with (2 * (m * 2 ^ Z.of_nat k))
      by (rewrite Nat2Z.inj_succ, Z.pow_succ_r; lia).
    rewrite shr_1_double; [exact IH|]. apply Z.mul_pos_pos; lia.
Qed.

Lemma pos_iter_xO m d : Zpos (Pos.iter xO m d) = Zpos m * 2 ^ Zpos d.
Proof.
  induction d as [|d IH] using Pos.peano_ind.
  - simpl. lia.
  - rewrite Pos.iter_succ, Pos2Z.inj_xO, IH, Pos2Z.inj_succ, Z.pow_succ_r; lia.
Qed.

Lemma log2_bound n : 0 < n < 2 ^ 53 → 0 ≤ Z.log2 n ≤ 52.
Proof.
  intros [H0 H1]. split; [apply Z.log2_nonneg|].
  assert (Z.log2 n < 53); [|lia]. apply Z.log2_lt_pow2; lia.
Qed.

Lemma round_aux_exact s m e n :
  0 < n < 2 ^ 53 → e ≤ 0 → Zpos m = n * 2 ^ (- e) →
  53 ≤ Z.log2 (Zpos m) + 1 →
  binary_round_aux 53 1024 s (Zpos m) e loc_Exact = canon_pos s n.
Proof.
  intros Hn He Hm Hd. pose proof (log2_bound n Hn) as Hl.
  assert (Z.log2 (Zpos m) = - e + Z.log2 n) as Hlog
    by (rewrite Hm; apply Z.log2_mul_pow2; lia).
  set (k := Z.log2 n - 52 - e).
  assert (0 ≤ k) as Hk by lia.
  set (m1 := n * 2 ^ (52 - Z.log2 n)).
  assert (0 < m1) as Hm1 by (apply Z.mul_pos_pos; [lia|apply Z.pow_pos_nonneg; lia]).
  assert (Z.log2 m1 = 52) as Hlog1
    by (unfold m1; rewrite Z.log2_mul_pow2 by lia; lia).
  assert (Zpos m = m1 * 2 ^ k) as Hmk.
  { rewrite Hm. unfold m1. rewrite <- Z.mul_assoc, <- Z.pow_add_r by lia.
    f_equal. f_equal. lia. }
  unfold binary_round_aux.
  assert (shr_fexp 53 1024 (Zpos m) e loc_Exact
          = (Build_shr_record m1 false false, Z.log2 n - 52)) as ->.
  { unfold shr_fexp, fexp, emin. cbn [Zdigits2 shr_record_of_loc].
    rewrite digits2_pos_log2, Hlog.
    replace (Z.max (- e + Z.log2 n + 1 + e - 53) (3 - 1024 - 53) - e) with k by lia.
    unfold shr. destruct k as [|pk|pk] eqn:Ek; [| |lia].
    - f_equal; [|lia]. f_equal. rewrite Hmk. cbn. lia.
    - f_equal; [|lia]. rewrite iter_pos_nat, Hmk.
      rewrite <- (positive_nat_Z pk). apply shr_iter_exact, Hm1. }
  cbn [shr_m loc_of_shr_record round_nearest_even].
  assert (shr_fexp 53 1024 m1 (Z.log2 n - 52) loc_Exact
          = (Build_shr_record m1 false false, Z.log2 n - 52)) as ->.
  { unfold shr_fexp, fexp, emin. cbn [shr_record_of_loc].
    destruct m1 as [|p1|p1] eqn:E1; try lia. cbn [Zdigits2].
    rewrite digits2_pos_log2, Hlog1.
    replace (Z.max (52 + 1 + (Z.log2 n - 52) - 53) (3 - 1024 - 53)
             - (Z.log2 n - 52)) with 0 by lia.
    done. }
  cbn [shr_m]. unfold canon_pos. fold m1.
  destruct m1 as [|p1|p1] eqn:E1; try lia.
  rewrite (proj2 (Z.leb_le _ _)) by lia. done.
Qed.

Lemma round_exact s m e n :
  0 < n < 2 ^ 53 → e ≤ 0 → Zpos m = n * 2 ^ (- e) →
  binary_round 53 1024 s m e = canon_pos s n.
Proof.
  intros Hn He Hm. pose proof (log2_bound n Hn) as Hl.
  assert (Z.log2 (Zpos m) = - e + Z.log2 n) as Hlog
    by (rewrite Hm; apply Z.log2_mul_pow2; lia).
  unfold binary_round, shl_align, fexp, emin.
  rewrite digits2_pos_log2, Hlog.
  replace (Z.max (- e + Z.log2 n + 1 + e - 53) (3 - 1024 - 53)) with (Z.log2 n - 52) by lia.
  destruct (Z.log2 n - 52 - e) as [|d|d] eqn:Ed.
  - apply round_aux_exact; [done..|lia].
  - apply round_aux_exact; [done..|lia].
  - apply round_aux_exact; [done|lia| |].
    + rewrite pos_iter_xO, Hm, <- Z.mul_assoc, <- Z.pow_add_r by lia.
      f_equal. f_equal. lia.
    + rewrite pos_iter_xO, Z.log2_mul_pow2 by lia. lia.
Qed.

Lemma nearest_of_Z_pos n :
  0 < n < 2 ^ 53 → Float.nearest_of_Z n = canon_pos false n.
Proof.
  intros Hn. unfold Float.nearest_of_Z, binary_normalize.
  destruct n as [|p|p]; try lia.
  apply round_exact; [done|lia|]. cbn. lia.
Qed.

Lemma canon_pos_mantissa s n :
  0 < n < 2 ^ 53 →
  ∃ m, canon_pos s n = S754_finite s m (Z.log2 n - 52)
       ∧ Zpos m = n * 2 ^ (52 - Z.log2 n) ∧ Z.log2 (Zpos m) = 52.
Proof.
  intros Hn. pose proof (log2_bound n Hn) as Hl.
  assert (0 < n * 2 ^ (52 - Z.log2 n)) as Hpos
    by (apply Z.mul_pos_pos; [lia|apply Z.pow_pos_nonneg; lia]).
  exists (Z.to_pos (n * 2 ^ (52 - Z.log2 n))). split; [done|].
  rewrite Z2Pos.id by done. split; [done|].
  rewrite Z.log2_mul_pow2 by lia. lia.
Qed.

Lemma shl_align_fst m e e' :
  e' ≤ e → Zpos (fst (shl_align m e e')) = Zpos m * 2 ^ (e - e').
Proof.
  intros Hle. unfold shl_align. destruct (e' - e) as [|d|d] eqn:Ed.
  - replace (e - e') with 0 by lia. cbn. lia.
  - lia.
  - cbn [fst]. rewrite pos_iter_xO. f_equal. f_equal. lia.
Qed.

Lemma add_exact_pos a b :
  0 < a → 0 < b → a + b < 2 ^ 53 →
  Float.add (canon_pos false a) (canon_pos false b) = canon_pos false (a + b).
Proof.
  intros Ha Hb Hab.
  destruct (canon_pos_mantissa false a) as (ma & -> & Hma & _); [lia|].
  destruct (canon_pos_mantissa false b) as (mb & -> & Hmb & _); [lia|].
  pose proof (log2_bound a ltac:(lia)) as Hla.
  pose proof (log2_bound b ltac:(lia)) as Hlb.
  unfold Float.add, SFadd, cond_Zopp.
  set (ea := Z.log2 a - 52). set (eb := Z.log2 b - 52). set (ez := Z.min ea eb).
  rewrite !shl_align_fst by lia. rewrite Hma, Hmb.
  assert (a * 2 ^ (52 - Z.log2 a) * 2 ^ (ea - ez) + b * 2 ^ (52 - Z.log2 b) * 2 ^ (eb - ez)
          = (a + b) * 2 ^ (- ez)) as ->.
  { rewrite <- !Z.mul_assoc, <- !Z.pow_add_r by lia.
    replace (52 - Z.log2 a + (ea - ez)) with (- ez) by lia.
    replace (52 - Z.log2 b + (eb - ez)) with (- ez) by lia. lia. }
  assert (0 < (a + b) * 2 ^ (- ez)) as Hpos
    by (apply Z.mul_pos_pos; [lia|apply Z.pow_pos_nonneg; lia]).
  unfold binary_normalize. destruct ((a + b) * 2 ^ (- ez)) as [|s|s] eqn:Es; try lia.
  apply round_exact; [lia|lia|done].
Qed.

Lemma mul_exact_pos a b :
  0 < a → 0 < b → a * b < 2 ^ 53 →
  Float.mul (canon_pos false a) (canon_pos false b) = canon_pos false (a * b).
Proof.
  intros Ha Hb Hab.
  assert (a < 2 ^ 53 ∧ b < 2 ^ 53) as [Ha' Hb'] by nia.
  destruct (canon_pos_mantissa false a) as (ma & -> & Hma & Hlma); [lia|].
  destruct (canon_pos_mantissa false b) as (mb & -> & Hmb & Hlmb); [lia|].
  pose proof (log2_bound a ltac:(lia)) as Hla.
  pose proof (log2_bound b ltac:(lia)) as Hlb.
  unfold Float.mul, SFmul. cbn [xorb].
  apply round_aux_exact.
  - nia.
  - lia.
  - rewrite Pos2Z.inj_mul, Hma, Hmb.
    replace (- (Z.log2 a - 52 + (Z.log2 b - 52)))
      with ((52 - Z.log2 a) + (52 - Z.log2 b)) by lia.
    rewrite Z.pow_add_r by lia. lia.
  - rewrite Pos2Z.inj_mul.
    pose proof (Z.log2_mul_below (Zpos ma) (Zpos mb) ltac:(lia) ltac:(lia)). lia.
Qed.

Lemma nearest_of_Z_zero : Float.nearest_of_Z 0 = S754_zero false.
Proof. done. Qed.

Lemma add_exact a b :
  0 ≤ a → 0 ≤ b → a + b < 2 ^ 53 →
  Float.add (Float.nearest_of_Z a) (Float.nearest_of_Z b) = Float.nearest_of_Z (a + b).
Proof.
  intros Ha Hb Hab.
  destruct (decide (a = 0)) as [->|Hna]; destruct (decide (b = 0)) as [->|Hnb].
  - done.
  - rewrite Z.add_0_l, (nearest_of_Z_pos b), nearest_of_Z_zero by lia. done.
  - rewrite Z.add_0_r, (nearest_of_Z_pos a), nearest_of_Z_zero by lia. done.
  - rewrite (nearest_of_Z_pos a), (nearest_of_Z_pos b), (nearest_of_Z_pos (a + b)) by lia.
    apply add_exact_pos; lia.
Qed.

(** Both factors are whole numbers below 2^53 here: a zero factor with a
    huge other one is outside the lemma. *)
Lemma mul_exact a b :
  0 ≤ a < 2 ^ 53 → 0 ≤ b < 2 ^ 53 → a * b < 2 ^ 53 →
  Float.mul (Float.nearest_of_Z a) (Float.nearest_of_Z b) = Float.nearest_of_Z (a * b).
Proof.
  intros Ha Hb Hab.
  destruct (decide (a = 0)) as [->|Hna]; destruct (decide (b = 0)) as [->|Hnb].
  - done.
  - rewrite Z.mul_0_l, (nearest_of_Z_pos b), nearest_of_Z_zero by lia. done.
  - rewrite Z.mul_0_r, (nearest_of_Z_pos a), nearest_of_Z_zero by lia. done.
  - rewrite (nearest_of_Z_pos a), (nearest_of_Z_pos b), (nearest_of_Z_pos (a * b)) by nia.
    apply mul_exact_pos; lia.
Qed.

Lemma exact_int_nearest n :
  0 ≤ n < 2 ^ 53 → exact_int (VFloat (Float.nearest_of_Z n)) = Some n.
Proof.
  intros Hn. destruct (decide (n = 0)) as [->|Hne]; [done|].
  rewrite nearest_of_Z_pos by lia.
  destruct (canon_pos_mantissa false n) as (m & -> & Hm & _); [lia|].
  pose proof (log2_bound n ltac:(lia)) as Hl.
  unfold exact_int. rewrite Hm.
  destruct (decide (Z.log2 n = 52)) as [Heq|Hlt].
  - rewrite Heq. replace (52 - 52) with 0 by lia. cbn. f_equal. lia.
  - rewrite (proj2 (Z.leb_gt _ _)) by lia. cbn [orb].
    replace (- (Z.log2 n - 52)) with (52 - Z.log2 n) by lia.
    rewrite Z.mod_mul by (apply Z.pow_nonzero; lia).
    rewrite Z.eqb_refl, Z.div_mul by (apply Z.pow_nonzero; lia). done.
Qed.

End float_facts.

(* ===================================================================== *)
(** ** The totals *)
(* ===================================================================== *)

Section totals_facts.

Lemma Zsum_cons z l : Zsum (z :: l) = z + Zsum l.
Proof. done. Qed.

Lemma Zsum_app l1 l2 : Zsum (l1 ++ l2) = Zsum l1 + Zsum l2.
Proof. unfold Zsum. induction l1 as [|z l1 IH]; cbn; [done|]. rewrite IH. lia. Qed.

Lemma Zsum_perm l1 l2 : l1 ≡ₚ l2 → Zsum l1 = Zsum l2.
Proof. unfold Zsum. induction 1; cbn; lia. Qed.

Lemma items_sum_perm f items1 items2 :
  items1 ≡ₚ items2 → items_sum f items1 = items_sum f items2.
Proof. intros H. unfold items_sum. apply Zsum_perm. by rewrite H. Qed.

Lemma items_sum_cons f d l items :
  items_sum f ((d, l) :: items) = Zsum (f <$> l) + items_sum f items.
Proof. done. Qed.

(** Appending a record to the list of its department adds its measure. *)
Lemma items_sum_append f (deps : gmap string (list Employee)) dept e :
  items_sum f (map_to_list
                 (alter (λ l, l ++ [e]) dept
                    (if decide (is_Some (deps !! dept)) then deps
                     else <[dept := []]> deps)))
  = items_sum f (map_to_list deps) + f e.
Proof.
  destruct (decide (is_Some (deps !! dept))) as [[l0 Hl0]|Hnone].
  - assert (alter (λ l, l ++ [e]) dept deps
            = <[dept := l0 ++ [e]]> (delete dept deps)) as ->.
    { apply map_eq. intros k. destruct (decide (dept = k)) as [<-|Hne].
      - by rewrite lookup_alter_eq, lookup_insert_eq, Hl0.
      - by rewrite lookup_alter_ne, lookup_insert_ne, lookup_delete_ne. }
    rewrite (items_sum_perm f _ _
               (map_to_list_insert (delete dept deps) dept (l0 ++ [e])
                  (lookup_delete_eq deps dept))).
    rewrite <- (items_sum_perm f _ _ (map_to_list_delete deps dept l0 Hl0)).
    rewrite !items_sum_cons, fmap_app, Zsum_app. cbn. lia.
  - apply eq_None_not_Some in Hnone.
    rewrite alter_insert_eq.
    rewrite (items_sum_perm f _ _ (map_to_list_insert deps dept _ Hnone)).
    rewrite items_sum_cons. cbn. lia.
Qed.

Lemma group_by_department_sum f recs deps0 deps :
  group_by_department recs deps0 = Ok deps →
  items_sum f (map_to_list deps)
  = items_sum f (map_to_list deps0) + Zsum (f <$> recs).
Proof.
  revert deps0. induction recs as [|e recs IH]; intros deps0 Hg.
  - injection Hg as <-. cbn. lia.
  - cbn [group_by_department] in Hg. apply bind_Ok in Hg as (dept & _ & Hg).
    rewrite (IH _ Hg), items_sum_append, fmap_cons, Zsum_cons. lia.
Qed.

Lemma sorted_items_sum f recs deps :
  group_by_department recs ∅ = Ok deps →
  items_sum f (sorted_items deps) = Zsum (f <$> recs).
Proof.
  intros Hg. rewrite (items_sum_perm f _ _ (sorted_items_perm deps)).
  rewrite (group_by_department_sum f _ _ _ Hg), map_to_list_empty. done.
Qed.

Lemma py_sum_from_ints a zs :
  py_sum_from (VInt a) (VInt <$> zs) = Ok (VInt (a + Zsum zs)).
Proof.
  revert a. induction zs as [|z zs IH]; intros a; cbn.
  - by rewrite Z.add_0_r.
  - rewrite IH. do 2 f_equal. unfold Zsum. cbn. lia.
Qed.

Lemma py_sum_ints zs : py_sum (VInt <$> zs) = Ok (VInt (Zsum zs)).
Proof. unfold py_sum. by rewrite py_sum_from_ints. Qed.

(** The hours and the payouts the rows of a list of records carry. *)
Lemma rows_values emps (rows : list (string * pyval * pyval)) :
  Forall2 (λ e row, employee_row e = Ok row) emps rows →
  rows.*1.*2 = hours_of <$> emps ∧ payouts_of emps = Ok rows.*2.
Proof.
  induction 1 as [|e [[line h] p] emps rows Hrow _ [IHh IHp]]; [done|].
  apply employee_row_values in Hrow as [-> Hp]. cbn.
  rewrite IHh, Hp. cbn. rewrite IHp. done.
Qed.

Lemma int_valued_rows emps :
  Forall int_valued emps →
  hours_of <$> emps = VInt <$> ((λ e, int_of (hours_of e)) <$> emps)
  ∧ payouts_of emps
    = Ok (VInt <$> ((λ e, int_of (hours_of e) * int_of (rate_of e)) <$> emps)).
Proof.
  induction 1 as [|e emps [[h Hh] [r Hr]] _ [IHh IHp]]; [done|].
  cbn. rewrite IHh, IHp, Hh, Hr. done.
Qed.

Lemma section_of_sums item sec :
  section_of item sec →
  py_sum (hours_of <$> item.2) = Ok sec.1.2
  ∧ payouts_of item.2 ≫= py_sum = Ok sec.2.
Proof.
  intros (rows & subtotal & Hrows & Hh & Hp & _ & _).
  apply rows_values in Hrows as [<- ->]. done.
Qed.

Lemma section_of_int_valued item sec :
  section_of item sec → Forall int_valued item.2 →
  sec.1.2 = VInt (Zsum ((λ e, int_of (hours_of e)) <$> item.2))
  ∧ sec.2 = VInt (Zsum ((λ e, int_of (hours_of e) * int_of (rate_of e)) <$> item.2)).
Proof.
  intros Hsec Hint. apply section_of_sums in Hsec as [Hh Hp].
  apply int_valued_rows in Hint as [Hih Hip].
  rewrite Hih, py_sum_ints in Hh. rewrite Hip in Hp. cbn in Hp.
  rewrite py_sum_ints in Hp. split; congruence.
Qed.

Lemma sections_int_valued items (secs : list (list string * pyval * pyval)) :
  Forall2 section_of items secs →
  Forall (λ item, Forall int_valued item.2) items →
  secs.*1.*2
  = VInt <$> ((λ item, Zsum ((λ e, int_of (hours_of e)) <$> item.2)) <$> items)
  ∧ secs.*2
    = VInt <$> ((λ item, Zsum ((λ e, int_of (hours_of e) * int_of (rate_of e))
                                 <$> item.2)) <$> items).
Proof.
  induction 1 as [|item sec items secs Hsec _ IH]; intros Hint; [done|].
  apply Forall_cons in Hint as [Hi Hint].
  destruct (section_of_int_valued _ _ Hsec Hi) as [Hh Hp].
  destruct (IH Hint) as [IHh IHp]. cbn. by rewrite IHh, IHp, Hh, Hp.
Qed.

Lemma whole_number_Some v n : whole_number v = Some n ↔ whole v n.
Proof.
  unfold whole_number. split.
  - destruct (exact_int v) as [k|]; [|done]. cbn. case_decide; [|done].
    by intros [= <-].
  - intros Hw. assert (exact_int v = Some n) as ->.
    { destruct Hw as [Hn [->| ->]]; [done|]. by apply exact_int_nearest. }
    cbn. by rewrite decide_True.
Qed.

Lemma whole_nonneg v n : whole v n → 0 ≤ n.
Proof. intros [? _]. lia. Qed.

Lemma of_int_whole n : 0 ≤ n < 2 ^ 53 → Float.of_int n = Ok (Float.nearest_of_Z n).
Proof.
  intros Hn. unfold Float.of_int.
  assert (2 ^ 53 < Float.int_limit) as Hlim by (vm_compute; reflexivity).
  rewrite (proj2 (Z.ltb_lt _ _)); [done|]. lia.
Qed.

Lemma py_add_whole a b x y :
  whole a x → whole b y → x + y < 2 ^ 53 →
  ∃ c, py_add a b = Ok c ∧ whole c (x + y).
Proof.
  intros [Hx Ha] [Hy Hb] Hxy.
  destruct Ha as [->| ->], Hb as [->| ->]; cbn -[Float.of_int];
    rewrite ?of_int_whole by lia; cbn -[Float.nearest_of_Z Z.pow];
    rewrite ?add_exact by lia;
    (eexists; split; [reflexivity|]); (split; [lia|]); auto.
Qed.

Lemma py_mul_whole a b x y :
  whole a x → whole b y → x * y < 2 ^ 53 →
  ∃ c, py_mul a b = Ok c ∧ whole c (x * y).
Proof.
  intros [Hx Ha] [Hy Hb] Hxy.
  destruct Ha as [->| ->], Hb as [->| ->]; cbn -[Float.of_int];
    rewrite ?of_int_whole by lia; cbn -[Float.nearest_of_Z Z.pow];
    rewrite ?mul_exact by lia;
    (eexists; split; [reflexivity|]); (split; [nia|]); auto.
Qed.

Lemma Zsum_nonneg l : Forall (λ z, 0 ≤ z) l → 0 ≤ Zsum l.
Proof. induction 1 as [|z l Hz _ IH]; [done|]. rewrite Zsum_cons. lia. Qed.

Lemma py_sum_from_whole acc a vs ns :
  whole acc a → Forall2 whole vs ns → a + Zsum ns < 2 ^ 53 →
  ∃ r, py_sum_from acc vs = Ok r ∧ whole r (a + Zsum ns).
Proof.
  intros Hacc Hvs. revert acc a Hacc.
  induction Hvs as [|v n vs ns Hv Hvs IH]; intros acc a Hacc Hb.
  - cbn. exists acc. split; [done|]. by rewrite Z.add_0_r.
  - rewrite Zsum_cons in Hb.
    assert (0 ≤ Zsum ns).
    { apply Zsum_nonneg. eapply Forall2_Forall_r; [exact Hvs|].
      apply Forall_forall. intros ??. by eapply whole_nonneg. }
    pose proof (whole_nonneg _ _ Hv).
    destruct (py_add_whole _ _ _ _ Hacc Hv ltac:(lia)) as (c & Hc & Hwc).
    cbn [py_sum_from]. rewrite Hc. cbn [mbind outcome_bind].
    destruct (IH c (a + n) Hwc ltac:(lia)) as (r & Hr & Hwr).
    exists r. split; [done|]. rewrite Zsum_cons.
    by replace (a + (n + Zsum ns)) with (a + n + Zsum ns) by lia.
Qed.

Lemma whole_valued_hours e : whole_valued e → whole (hours_of e) (whole_hours e).
Proof.
  intros [[n Hn] _]. unfold whole_hours. rewrite Hn. by apply whole_number_Some.
Qed.

Lemma whole_valued_rate e : whole_valued e → whole (rate_of e) (whole_rate e).
Proof.
  intros [_ [n Hn]]. unfold whole_rate. rewrite Hn. by apply whole_number_Some.
Qed.

Lemma whole_hours_nonneg e : 0 ≤ whole_hours e.
Proof.
  unfold whole_hours. destruct (whole_number (hours_of e)) as [n|] eqn:E; [|done].
  apply whole_number_Some in E. by eapply whole_nonneg.
Qed.

Lemma whole_payout_nonneg e : 0 ≤ whole_payout e.
Proof.
  unfold whole_payout, whole_rate. pose proof (whole_hours_nonneg e).
  destruct (whole_number (rate_of e)) as [n|] eqn:E; cbn; [|lia].
  apply whole_number_Some in E. apply whole_nonneg in E. nia.
Qed.

Lemma Zsum_fmap_nonneg {A} (f : A → Z) l : (∀ x, 0 ≤ f x) → 0 ≤ Zsum (f <$> l).
Proof. intros Hf. apply Zsum_nonneg, Forall_fmap, Forall_forall. auto. Qed.

Lemma payouts_whole emps ps :
  Forall whole_valued emps → Zsum (whole_payout <$> emps) < 2 ^ 53 →
  payouts_of emps = Ok ps → Forall2 whole ps (whole_payout <$> emps).
Proof.
  intros Hw. revert ps. induction Hw as [|e emps He _ IH]; intros ps Hb Hps.
  - injection Hps as <-. constructor.
  - rewrite fmap_cons, Zsum_cons in Hb.
    pose proof (Zsum_fmap_nonneg whole_payout emps whole_payout_nonneg).
    pose proof (whole_payout_nonneg e).
    cbn [payouts_of] in Hps. apply bind_Ok in Hps as (p & Hp & Hps).
    apply bind_Ok in Hps as (ps' & Hps' & [= <-]).
    destruct (py_mul_whole _ _ _ _ (whole_valued_hours e He) (whole_valued_rate e He))
      as (c & Hc & Hwc); [unfold whole_payout in *; lia|].
    rewrite Hp in Hc. injection Hc as <-.
    rewrite fmap_cons. constructor; [done|]. apply IH; [lia|done].
Qed.

Lemma hours_whole emps :
  Forall whole_valued emps → Forall2 whole (hours_of <$> emps) (whole_hours <$> emps).
Proof.
  induction 1 as [|e emps He _ IH]; [constructor|].
  rewrite !fmap_cons. constructor; [by apply whole_valued_hours|done].
Qed.

Lemma py_sum_whole vs ns r :
  Forall2 whole vs ns → Zsum ns < 2 ^ 53 → py_sum vs = Ok r → whole r (Zsum ns).
Proof.
  intros Hvs Hb Hr.
  destruct (py_sum_from_whole (VInt 0) 0 vs ns) as (r' & Hr' & Hw); [|done|lia|].
  { split; [lia|by left]. }
  unfold py_sum in Hr. rewrite Hr in Hr'. injection Hr' as <-. done.
Qed.

Lemma section_of_whole item sec :
  section_of item sec → Forall whole_valued item.2 →
  Zsum (whole_hours <$> item.2) < 2 ^ 53 →
  Zsum (whole_payout <$> item.2) < 2 ^ 53 →
  whole sec.1.2 (Zsum (whole_hours <$> item.2))
  ∧ whole sec.2 (Zsum (whole_payout <$> item.2)).
Proof.
  intros Hsec Hw Hbh Hbp. apply section_of_sums in Hsec as [Hh Hp].
  apply bind_Ok in Hp as (ps & Hps & Hp). split.
  - by apply (py_sum_whole _ _ _ (hours_whole _ Hw)).
  - by apply (py_sum_whole _ _ _ (payouts_whole _ _ Hw Hbp Hps)).
Qed.

Lemma sections_whole items (secs : list (list string * pyval * pyval)) :
  Forall2 section_of items secs →
  Forall (λ item, Forall whole_valued item.2) items →
  items_sum whole_hours items < 2 ^ 53 →
  items_sum whole_payout items < 2 ^ 53 →
  Forall2 whole secs.*1.*2 ((λ item, Zsum (whole_hours <$> item.2)) <$> items)
  ∧ Forall2 whole secs.*2 ((λ item, Zsum (whole_payout <$> item.2)) <$> items).
Proof.
  induction 1 as [|[d emps] sec items secs Hsec _ IH]; intros Hw Hbh Hbp.
  - split; constructor.
  - apply Forall_cons in Hw as [Hwi Hw]. rewrite items_sum_cons in Hbh, Hbp.
    assert (0 ≤ items_sum whole_hours items ∧ 0 ≤ items_sum whole_payout items)
      as [? ?].
    { split; apply Zsum_fmap_nonneg; intros item; apply Zsum_fmap_nonneg.
      - apply whole_hours_nonneg.
      - apply whole_payout_nonneg. }
    pose proof (Zsum_fmap_nonneg whole_hours emps whole_hours_nonneg).
    pose proof (Zsum_fmap_nonneg whole_payout emps whole_payout_nonneg).
    destruct (section_of_whole _ _ Hsec Hwi) as [Hh Hp]; [cbn [snd]; lia..|].
    destruct (IH Hw) as [IHh IHp]; [lia..|].
    rewrite !fmap_cons. split; by constructor.
Qed.

Lemma payout_totals_whole recs st :
  payout_totals recs = Ok st →
  Forall whole_valued recs →
  Zsum (whole_hours <$> recs) < 2 ^ 53 →
  Zsum (whole_payout <$> recs) < 2 ^ 53 →
  whole_number (total_hours st) = Some (Zsum (whole_hours <$> recs))
  ∧ whole_number (total_payout st) = Some (Zsum (whole_payout <$> recs)).
Proof.
  intros Hst Hw Hbh Hbp. unfold payout_totals in Hst.
  apply bind_Ok in Hst as (deps & Hdeps & Hloop).
  apply departments_loop_inv in Hloop as (secs & Hsecs & _ & Hh & Hp). cbn in Hh, Hp.
  destruct (sorted_items_grouped _ deps Hdeps) as [Hitems _].
  rewrite <- (sorted_items_sum whole_hours _ _ Hdeps) in Hbh |- *.
  rewrite <- (sorted_items_sum whole_payout _ _ Hdeps) in Hbp |- *.
  destruct (sections_whole _ _ Hsecs) as [Hsh Hsp]; [|done..|].
  { rewrite Hitems. apply Forall_fmap, Forall_forall. intros d _. cbn.
    apply Forall_forall. intros e He. apply list_elem_of_filter in He as [_ He].
    by apply (proj1 (Forall_forall _ _) Hw). }
  split; apply whole_number_Some.
  - by apply (py_sum_whole _ _ _ Hsh).
  - by apply (py_sum_whole _ _ _ Hsp).
Qed.

End totals_facts.

(** C7 (amended). On records as the parser builds them the totals are
    computed (nothing is raised). Whenever they are computed: the
    subtotals of a department are the hours, and the payouts
    hours_worked * hourly_rate (0 for an absent field), of its records
    added up left to right in order of arrival; grand_total_hours and
    grand_total_payout are the subtotals added up left to right in the
    ascending order of the departments. grand_total_hours is the sum of
    the hours, and grand_total_payout the sum of
    hours_worked * hourly_rate, over all records where the arithmetic is
    exact: when every hours_worked and hourly_rate is an int; and when
    they are whole numbers from 0 on (ints, or floats as [float] gives
    them for such numerals) and both sums stay below 2^53. *)
Theorem grand_totals_sum_department_subtotals (employees_data : list Employee) :
  (Forall parsed_employee employees_data →
   ∃ st, payout_totals employees_data = Ok st)
  ∧ ∀ st, payout_totals employees_data = Ok st →
    ∃ (depts : list string) (subtotals : list (pyval * pyval)),
      StronglySorted strictly_before depts
      ∧ (∀ d, d ∈ depts ↔ in_department employees_data d ≠ [])
      ∧ Forall2 (λ dept sub,
           py_sum (hours_of <$> in_department employees_data dept) = Ok sub.1
           ∧ payouts_of (in_department employees_data dept) ≫= py_sum = Ok sub.2)
          depts subtotals
      ∧ py_sum subtotals.*1 = Ok (total_hours st)
      ∧ py_sum subtotals.*2 = Ok (total_payout st)
      ∧ (Forall int_valued employees_data →
         total_hours st
         = VInt (Zsum ((λ e, int_of (hours_of e)) <$> employees_data))
         ∧ total_payout st
           = VInt (Zsum ((λ e, int_of (hours_of e) * int_of (rate_of e))
                           <$> employees_data)))
      ∧ (Forall whole_valued employees_data →
         Zsum (whole_hours <$> employees_data) < 2 ^ 53 →
         Zsum (whole_payout <$> employees_data) < 2 ^ 53 →
         whole_number (total_hours st)
         = Some (Zsum (whole_hours <$> employees_data))
         ∧ whole_number (total_payout st)
           = Some (Zsum (whole_payout <$> employees_data))).
Proof.
  split.
  { intros Hp. destruct (payout_totals_parsed _ Hp) as (st & Hst & _). eauto. }
  intros st Hst. pose proof (payout_totals_whole _ _ Hst) as Hwhole.
  unfold payout_totals in Hst.
  apply bind_Ok in Hst as (deps & Hdeps & Hloop).
  apply departments_loop_inv in Hloop as (secs & Hsecs & _ & Hh & Hp). cbn in Hh, Hp.
  destruct (sorted_items_grouped _ deps Hdeps) as [Hitems Hdepts].
  exists (sorted_items deps).*1, ((λ sec, (sec.1.2, sec.2)) <$> secs).
  split; [apply sorted_items_keys_sorted|]. split; [done|]. split.
  { pose proof Hsecs as Hsecs'. rewrite Hitems, Forall2_fmap_l in Hsecs'.
    rewrite Forall2_fmap_r. eapply Forall2_impl; [exact Hsecs'|].
    intros d sec Hsec. by apply section_of_sums in Hsec. }
  assert (((λ sec : list string * pyval * pyval, (sec.1.2, sec.2)) <$> secs).*1
          = secs.*1.*2) as ->.
  { rewrite <- !list_fmap_compose. by apply Forall_fmap_ext_1, Forall_forall. }
  assert (((λ sec : list string * pyval * pyval, (sec.1.2, sec.2)) <$> secs).*2
          = secs.*2) as ->.
  { rewrite <- !list_fmap_compose. by apply Forall_fmap_ext_1, Forall_forall. }
  split; [done|]. split; [done|]. split; [|done].
  intros Hint.
  destruct (sections_int_valued _ _ Hsecs) as [Hsh Hsp].
  { rewrite Hitems. apply Forall_fmap, Forall_forall. intros d _. cbn.
    apply Forall_forall. intros e He. apply list_elem_of_filter in He as [_ He].
    by apply (proj1 (Forall_forall _ _) Hint). }
  rewrite Hsh in Hh. rewrite Hsp in Hp. unfold py_sum in *.
  rewrite py_sum_from_ints in Hh, Hp. injection Hh as <-. injection Hp as <-.
  fold (items_sum (λ e, int_of (hours_of e)) (sorted_items deps)).
  fold (items_sum (λ e, int_of (hours_of e) * int_of (rate_of e)) (sorted_items deps)).
  by rewrite !(sorted_items_sum _ _ _ Hdeps).
Qed.

(** The records of a file of whole numbers: the totals are the exact
    sums, 480 hours and 23800 of payout. *)
Example whole_totals_of_a_file :
  (recs ← parse_csv_to_dicts "name,department,hours_worked,rate
John Doe,IT,160,50
Jane Smith,IT,150,60
Bob Brown,HR,170,40";
   st ← payout_totals recs;
   Ok (bool_decide (Forall whole_valued recs),
       Zsum (whole_payout <$> recs),
       whole_number (total_hours st), whole_number (total_payout st)))
  = Ok (true, 23800, Some 480, Some 23800).
Proof. vm_compute. reflexivity. Qed.

(** C7, where the claim fails. The file [drifting_text] gives four
    records whose hours and rates are floats with integer values. The
    grand total of the payouts, summed by department (A: 1 + 1, then
    B: 9007199254740992 + 1, which rounds to 9007199254740992), is the
    float 9007199254740994. The payouts added up record by record give
    the float 9007199254740992, and their exact sum is 9007199254740995. *)
Lemma grand_total_payout_differs_from_record_sum :
  parse_csv_to_dicts drifting_text = Ok drifting_records
  ∧ (st ← payout_totals drifting_records; Ok (exact_int (total_payout st)))
    = Ok (Some 9007199254740994)
  ∧ (v ← payouts_of drifting_records ≫= py_sum; Ok (exact_int v))
    = Ok (Some 9007199254740992)
  ∧ Zsum <$> mapM exact_payout drifting_records = Some 9007199254740995.
Proof. repeat split; vm_compute; reflexivity. Qed.

(* ===================================================================== *)
(** ** The report registry *)
(* ===================================================================== *)

Section numeric_facts.

Lemma int_size_nonneg v : 0 ≤ int_size v.
Proof. destruct v; cbn; lia. Qed.

Lemma payout_size_nonneg e : 0 ≤ payout_size e.
Proof. unfold payout_size. destruct (hours_of e), (rate_of e); lia. Qed.

Lemma of_int_in_range z :
  Z.abs z < Float.int_limit → Float.of_int z = Ok (Float.nearest_of_Z z).
Proof.
  intros Hz. unfold Float.of_int.
  by destruct (Z.ltb_spec (Z.abs z) Float.int_limit) as [_|?]; [|lia].
Qed.

Lemma py_add_numbers a b :
  is_number a → is_number b → int_size a + int_size b < Float.int_limit →
  ∃ c, py_add a b = Ok c ∧ is_number c ∧ int_size c ≤ int_size a + int_size b.
Proof.
  destruct a as [s|x|f], b as [t|y|g]; try done; intros _ _ Hsize;
    cbn [int_size] in Hsize; cbn [py_add].
  - exists (VInt (x + y)). split; [done|]. split; [done|]. cbn [int_size]. lia.
  - rewrite of_int_in_range by lia. eexists. split; [reflexivity|].
    split; [done|]. cbn [int_size]. lia.
  - rewrite of_int_in_range by lia. eexists. split; [reflexivity|].
    split; [done|]. cbn [int_size]. lia.
  - eexists. split; [reflexivity|]. split; [done|]. cbn [int_size]. lia.
Qed.

Lemma py_mul_numbers a b :
  is_number a → is_number b →
  int_size a < Float.int_limit → int_size b < Float.int_limit →
  ∃ c, py_mul a b = Ok c ∧ is_number c
       ∧ int_size c = match a, b with
                      | VInt x, VInt y => Z.abs (x * y)
                      | _, _ => 0
                      end.
Proof.
  destruct a as [s|x|f], b as [t|y|g]; try done; intros _ _ Ha Hb;
    cbn [int_size] in Ha, Hb; cbn [py_mul].
  - by exists (VInt (x * y)).
  - rewrite of_int_in_range by lia. eexists. by split; [reflexivity|].
  - rewrite of_int_in_range by lia. eexists. by split; [reflexivity|].
  - eexists. by split; [reflexivity|].
Qed.

Lemma format_f_number w v :
  is_number v → int_size v < Float.int_limit → ∃ s, format_f w v = Ok s.
Proof.
  destruct v as [s|x|f]; try done; intros _ Hv; cbn [int_size] in Hv; cbn [format_f].
  - rewrite of_int_in_range by lia. by eexists.
  - by eexists.
Qed.

Lemma text_or_absent_get_text e key default :
  text_or_absent e key → ∃ s, get_text e key default = Ok s.
Proof.
  unfold text_or_absent, get_text. destruct (e !! key) as [[]|]; by eauto.
Qed.

Lemma employee_row_numeric e :
  numeric_employee e →
  int_size (hours_of e) < Float.int_limit →
  int_size (rate_of e) < Float.int_limit →
  payout_size e < Float.int_limit →
  ∃ row, employee_row e = Ok row
         ∧ row.1.2 = hours_of e
         ∧ is_number row.2 ∧ int_size row.2 = payout_size e.
Proof.
  intros (Hname & _ & Hh & Hr) Hhs Hrs Hps.
  unfold employee_row. fold (hours_of e) (rate_of e).
  destruct (text_or_absent_get_text e "name" "Unknown" Hname) as [name ->].
  destruct (py_mul_numbers _ _ Hh Hr Hhs Hrs) as (p & -> & Hp & Hpsize).
  fold (payout_size e) in Hpsize. cbn [mbind outcome_bind].
  destruct (format_f_number 8 _ Hh Hhs) as [hs ->].
  destruct (format_f_number 8 _ Hr Hrs) as [rs ->].
  destruct (format_f_number 9 p Hp) as [ps ->]; [lia|].
  cbn [mbind outcome_bind]. eexists. split; [reflexivity|]. done.
Qed.

Lemma py_sum_from_numbers acc vs :
  is_number acc → Forall is_number vs →
  int_size acc + Zsum (int_size <$> vs) < Float.int_limit →
  ∃ r, py_sum_from acc vs = Ok r ∧ is_number r
       ∧ int_size r ≤ int_size acc + Zsum (int_size <$> vs).
Proof.
  intros Hacc Hvs. revert acc Hacc.
  induction Hvs as [|v vs Hv _ IH]; intros acc Hacc Hsize.
  - exists acc. split; [done|]. split; [done|]. cbn. unfold Zsum. cbn. lia.
  - rewrite fmap_cons, Zsum_cons in Hsize |- *.
    pose proof (Zsum_fmap_nonneg int_size vs int_size_nonneg) as Hnn.
    destruct (py_add_numbers acc v Hacc Hv) as (c & Hc & Hcn & Hcs); [lia|].
    cbn [py_sum_from]. rewrite Hc. cbn [mbind outcome_bind].
    destruct (IH c Hcn) as (r & Hr & Hrn & Hrs); [lia|].
    exists r. split; [done|]. split; [done|]. lia.
Qed.

(** The rows of the employees of a department. *)
Lemma rows_numeric emps :
  Forall numeric_employee emps →
  Forall (λ e, int_size (rate_of e) < Float.int_limit) emps →
  Zsum ((λ e, int_size (hours_of e)) <$> emps) < Float.int_limit →
  Zsum (payout_size <$> emps) < Float.int_limit →
  ∃ rows : list (string * pyval * pyval),
    Forall2 (λ e row, employee_row e = Ok row) emps rows
    ∧ Forall is_number rows.*1.*2
    ∧ Zsum (int_size <$> rows.*1.*2) = Zsum ((λ e, int_size (hours_of e)) <$> emps)
    ∧ Forall is_number rows.*2
    ∧ Zsum (int_size <$> rows.*2) = Zsum (payout_size <$> emps).
Proof.
  induction 1 as [|e emps He _ IH]; intros Hrate Hh Hp.
  - exists []. by repeat constructor.
  - apply Forall_cons in Hrate as [Hr Hrate].
    rewrite fmap_cons, Zsum_cons in Hh, Hp.
    pose proof (Zsum_fmap_nonneg (λ e, int_size (hours_of e)) emps
                  (λ e, int_size_nonneg _)) as Hnh.
    pose proof (Zsum_fmap_nonneg payout_size emps payout_size_nonneg) as Hnp.
    pose proof (int_size_nonneg (hours_of e)) as Hne.
    pose proof (payout_size_nonneg e) as Hnpe.
    destruct IH as (rows & Hrows & Hhn & Hhs & Hpn & Hps); [done|lia|lia|].
    destruct (employee_row_numeric e He) as ([[line h] p] & Hrow & Hhe & Hpe & Hpse);
      [lia|done|lia|].
    cbn [fst snd] in Hhe, Hpe, Hpse. subst h.
    exists ((line, hours_of e, p) :: rows). split; [by constructor|].
    rewrite !fmap_cons, !Zsum_cons. cbn [fst snd].
    destruct He as (_ & _ & Hhnum & _).
    split; [by constructor|]. split; [by rewrite Hhs|].
    split; [by constructor|]. by rewrite Hps, Hpse.
Qed.

Lemma section_numeric dept emps :
  Forall numeric_employee emps →
  Forall (λ e, int_size (rate_of e) < Float.int_limit) emps →
  Zsum ((λ e, int_size (hours_of e)) <$> emps) < Float.int_limit →
  Zsum (payout_size <$> emps) < Float.int_limit →
  ∃ sec, section_of (dept, emps) sec
         ∧ is_number sec.1.2
         ∧ int_size sec.1.2 ≤ Zsum ((λ e, int_size (hours_of e)) <$> emps)
         ∧ is_number sec.2
         ∧ int_size sec.2 ≤ Zsum (payout_size <$> emps).
Proof.
  intros Hemps Hrate Hh Hp.
  destruct (rows_numeric emps Hemps Hrate Hh Hp)
    as (rows & Hrows & Hhn & Hhs & Hpn & Hps).
  destruct (py_sum_from_numbers (VInt 0) _ I Hhn) as (sh & Hsh & Hshn & Hshs).
  { cbn [int_size]. rewrite Hhs. lia. }
  destruct (py_sum_from_numbers (VInt 0) _ I Hpn) as (sp & Hsp & Hspn & Hsps).
  { cbn [int_size]. rewrite Hps. lia. }
  cbn [int_size] in Hshs, Hsps. rewrite Hhs in Hshs. rewrite Hps in Hsps.
  destruct (format_f_number 8 sh Hshn) as [hs Hhs']; [lia|].
  destruct (format_f_number 8 sp Hspn) as [ps Hps']; [lia|].
  eexists (dept :: rows.*1.*1 ++ [_], sh, sp). cbn [fst snd].
  split; [|split; [done|split; [lia|split; [done|lia]]]].
  exists rows. eexists. split; [done|]. split; [done|]. split; [done|].
  split; [|done]. unfold subtotal_line. cbn [fst snd]. rewrite Hhs', Hps'. done.
Qed.

Lemma sections_numeric (items : list (string * list Employee)) :
  Forall (λ item, Forall numeric_employee item.2
                  ∧ Forall (λ e, int_size (rate_of e) < Float.int_limit) item.2)
    items →
  items_sum (λ e, int_size (hours_of e)) items < Float.int_limit →
  items_sum payout_size items < Float.int_limit →
  ∃ secs, Forall2 section_of items secs
          ∧ Forall is_number secs.*1.*2
          ∧ Zsum (int_size <$> secs.*1.*2)
            ≤ items_sum (λ e, int_size (hours_of e)) items
          ∧ Forall is_number secs.*2
          ∧ Zsum (int_size <$> secs.*2) ≤ items_sum payout_size items.
Proof.
  induction 1 as [|[dept emps] items [Hnum Hrate] _ IH]; intros Hh Hp.
  - exists []. by repeat constructor.
  - cbn [snd] in Hnum, Hrate. rewrite items_sum_cons in Hh, Hp.
    pose proof (Zsum_fmap_nonneg (λ e, int_size (hours_of e)) emps
                  (λ e, int_size_nonneg _)) as Hnh.
    pose proof (Zsum_fmap_nonneg payout_size emps payout_size_nonneg) as Hnp.
    assert (∀ (f : Employee → Z) (l : list (string * list Employee)),
              (∀ e, 0 ≤ f e) → 0 ≤ items_sum f l) as Hitems.
    { intros f l Hf. unfold items_sum. apply Zsum_fmap_nonneg. intros item.
      by apply Zsum_fmap_nonneg. }
    pose proof (Hitems _ items (λ e, int_size_nonneg (hours_of e))) as Hih.
    pose proof (Hitems _ items payout_size_nonneg) as Hip.
    destruct IH as (secs & Hsecs & Hhn & Hhs & Hpn & Hps); [lia|lia|].
    destruct (section_numeric dept emps Hnum Hrate)
      as ([[lines sh] sp] & Hsec & Hshn & Hshs & Hspn & Hsps); [lia|lia|].
    cbn [fst snd] in Hshn, Hshs, Hspn, Hsps.
    exists ((lines, sh, sp) :: secs). split; [by constructor|].
    rewrite !fmap_cons, !Zsum_cons, !items_sum_cons. cbn [fst snd].
    split; [by constructor|]. split; [lia|]. split; [by constructor|]. lia.
Qed.

Lemma payout_totals_numeric recs :
  Forall numeric_employee recs → in_float_range recs →
  ∃ st, payout_totals recs = Ok st
        ∧ is_number (total_hours st) ∧ int_size (total_hours st) < Float.int_limit
        ∧ is_number (total_payout st) ∧ int_size (total_payout st) < Float.int_limit.
Proof.
  intros Hrecs (Hrate & Hh & Hp). unfold payout_totals.
  destruct (group_by_department_total recs ∅) as [deps Hdeps].
  { eapply Forall_impl; [exact Hrecs|]. intros e (_ & Hd & _).
    by apply text_or_absent_get_text. }
  rewrite Hdeps. cbn [mbind outcome_bind].
  destruct (sorted_items_grouped recs deps Hdeps) as [Hitems _].
  destruct (sections_numeric (sorted_items deps))
    as (secs & Hsecs & Hhn & Hhs & Hpn & Hps).
  { rewrite Hitems. apply Forall_fmap, Forall_forall. intros d _. cbn [snd].
    split; apply Forall_forall; intros e He;
      apply list_elem_of_filter in He as [_ He].
    - by apply (proj1 (Forall_forall _ _) Hrecs).
    - by apply (proj1 (Forall_forall _ _) Hrate). }
  { by rewrite (sorted_items_sum _ _ _ Hdeps). }
  { by rewrite (sorted_items_sum _ _ _ Hdeps). }
  rewrite (sorted_items_sum _ _ _ Hdeps) in Hhs.
  rewrite (sorted_items_sum _ _ _ Hdeps) in Hps.
  destruct (py_sum_from_numbers (VInt 0) _ I Hhn) as (gh & Hgh & Hghn & Hghs).
  { cbn [int_size]. lia. }
  destruct (py_sum_from_numbers (VInt 0) _ I Hpn) as (gp & Hgp & Hgpn & Hgps).
  { cbn [int_size]. lia. }
  cbn [int_size] in Hghs, Hgps.
  rewrite (departments_loop_ok _ _ secs gh gp); [|done..].
  eexists. split; [reflexivity|]. cbn [total_hours total_payout].
  split; [done|]. split; [lia|]. split; [done|]. lia.
Qed.

Lemma generate_payout_report_numeric recs :
  Forall numeric_employee recs → in_float_range recs →
  ∃ report, generate_payout_report recs = Ok report.
Proof.
  intros Hrecs Hrange. destruct recs as [|e recs]; [by eexists|].
  unfold generate_payout_report.
  destruct (payout_totals_numeric _ Hrecs Hrange) as (st & -> & Hh & Hhs & Hp & Hps).
  cbn [mbind outcome_bind]. unfold total_lines.
  destruct (format_f_number 0 _ Hh Hhs) as [hs ->].
  destruct (format_f_number 0 _ Hp Hps) as [ps ->].
  cbn [mbind outcome_bind]. eauto.
Qed.

End numeric_facts.

(** The three records of the test, which hold ints, are records of the
    wider kind and in range; those of the parser hold floats. *)
Example three_records_numeric_in_range :
  Forall numeric_employee three_records ∧ in_float_range three_records.
Proof.
  split; [|split; [|split]]; repeat constructor; vm_compute; reflexivity.
Qed.

(** C8. A name that is not registered makes get_report_generator raise
    the ValueError "Unknown report type: <name>" (the ConfigurationError
    of the specification); the selection takes no records, so no report
    function has run, and selecting then running raises the same error
    whatever the records. The name "payout" gives
    generate_payout_report. That error is the only exception of
    get_report_generator itself. Selecting and running a report raises
    nothing else on the records the parser builds, nor on records with a
    text (or no) name and department and int or float (or no) hours and
    rate whose ints stay in the range of float; outside these the payout
    report raises errors of its own. *)
Theorem unknown_report_type_is_the_only_selection_error (report_type : string) :
  (report_generators !! report_type = None →
   get_report_generator report_type
   = Raise (ValueError ("Unknown report type: " +:+ report_type))
   ∧ ∀ all_employees,
       run_report report_type all_employees
       = Raise (ValueError ("Unknown report type: " +:+ report_type)))
  ∧ (report_generators !! report_type = None ↔ report_type ≠ "payout")
  ∧ get_report_generator "payout" = Ok generate_payout_report
  ∧ (∀ e, get_report_generator report_type = Raise e →
          report_generators !! report_type = None
          ∧ e = ValueError ("Unknown report type: " +:+ report_type))
  ∧ ∀ all_employees e,
      Forall parsed_employee all_employees
      ∨ (Forall numeric_employee all_employees ∧ in_float_range all_employees) →
      run_report report_type all_employees = Raise e →
      report_generators !! report_type = None
      ∧ e = ValueError ("Unknown report type: " +:+ report_type).
Proof.
  assert (report_generators !! report_type = None ↔ report_type ≠ "payout") as Hreg.
  { unfold report_generators. rewrite lookup_singleton_None. naive_solver. }
  split; [|split; [done|split; [done|split]]].
  - intros Hnone. unfold run_report, get_report_generator. by rewrite Hnone.
  - intros e. unfold get_report_generator.
    destruct (report_generators !! report_type); [done|]. by intros [= <-].
  - intros recs e Hrecs. unfold run_report, get_report_generator.
    destruct (report_generators !! report_type) as [g|] eqn:Hg.
    + cbn. unfold report_generators in Hg.
      apply lookup_singleton_Some in Hg as [_ <-].
      destruct Hrecs as [Hrecs|[Hrecs Hrange]].
      * by destruct (generate_payout_report_parsed recs Hrecs) as [report ->].
      * by destruct (generate_payout_report_numeric recs Hrecs Hrange) as [report ->].
    + cbn. by intros [= <-].
Qed.

(** C8, where the claim fails. The payout report, selected under its
    registered name, raises errors that are not the error of an unknown
    report type: an
    OverflowError on int hours that no float holds, a ValueError of the
    format on a text under hours_worked. *)
Lemma payout_report_raises_other_errors :
  get_report_generator "payout" = Ok generate_payout_report
  ∧ run_report "payout" huge_hours_records = Raise OverflowError
  ∧ run_report "payout" text_hours_records
    = Raise (ValueError "Unknown format code 'f' for object of type 'str'").
Proof. split; [done|]. split; vm_compute; reflexivity. Qed.

(* ===================================================================== *)
(** * Further properties of the parser, the report and main *)
(* ===================================================================== *)

Section split_facts.

Lemma append_cons a s t : String a s +:+ t = String a (s +:+ t).
Proof. reflexivity. Qed.

Lemma append_nil_l t : "" +:+ t = t.
Proof. reflexivity. Qed.

Lemma join_cons sep x l :
  l ≠ [] → Text.join sep (x :: l) = x +:+ sep +:+ Text.join sep l.
Proof. by destruct l. Qed.

Lemma join_cons_head sep a w ws :
  Text.join sep (String a w :: ws) = String a (Text.join sep (w :: ws)).
Proof. by destruct ws. Qed.


Lemma has_char_app c s t :
  has_char c (s +:+ t) = has_char c s || has_char c t.
Proof.
  induction s as [|a s IH]; [done|]. rewrite append_cons. cbn [has_char].
  by case_decide.
Qed.

Lemma split_free sep s : has_char sep s = false → Text.split sep s = [s].
Proof.
  induction s as [|a s IH]; [done|]. cbn. case_decide as Ha; [done|].
  intros Hs. by rewrite (IH Hs).
Qed.

Lemma split_free_sep sep s t :
  has_char sep s = false →
  Text.split sep (s +:+ String sep t) = s :: Text.split sep t.
Proof.
  induction s as [|a s IH]; intros H.
  - rewrite append_nil_l. cbn. by rewrite decide_True.
  - rewrite append_cons. cbn in *. case_decide as Ha; [done|]. by rewrite (IH H).
Qed.

(** Splitting what was joined gives the pieces back. *)
Lemma split_join sep l :
  l ≠ [] → Forall (λ s, has_char sep s = false) l →
  Text.split sep (Text.join (String sep "") l) = l.
Proof.
  intros Hne Hl. induction Hl as [|s l Hs Hl IH]; [done|].
  destruct l as [|s' l].
  - cbn. by apply split_free.
  - rewrite join_cons by done. rewrite append_cons, append_nil_l.
    rewrite split_free_sep by done. f_equal. by apply IH.
Qed.

(** Joining what was split gives the text back. *)
Lemma join_split sep s :
  Text.join (String sep "") (Text.split sep s) = s.
Proof.
  induction s as [|a s IH]; [done|]. cbn [Text.split]. case_decide as Ha.
  - subst a. rewrite join_cons by apply split_not_nil.
    by rewrite IH.
  - destruct (Text.split sep s) as [|w ws] eqn:E.
    { by apply split_not_nil in E. }
    by rewrite join_cons_head, IH.
Qed.

Lemma split_pieces_free sep s :
  Forall (λ w, has_char sep w = false) (Text.split sep s).
Proof.
  induction s as [|a s IH]; [by repeat constructor|]. cbn [Text.split].
  case_decide as Ha; [by constructor|].
  destruct (Text.split sep s) as [|w ws]; [repeat constructor; cbn; by case_decide|].
  apply Forall_cons in IH as [Hw Hws]. constructor; [|done].
  cbn. by case_decide.
Qed.

(** A character that is not in the text is in none of its pieces. *)
Lemma split_pieces_without c sep s :
  has_char c s = false → Forall (λ w, has_char c w = false) (Text.split sep s).
Proof.
  induction s as [|a s IH]; [by repeat constructor|]. cbn [Text.split has_char].
  case_decide as Hc; [done|]. intros H. specialize (IH H). case_decide as Ha.
  - by constructor.
  - destruct (Text.split sep s) as [|w ws]; [repeat constructor; cbn; by case_decide|].
    apply Forall_cons in IH as [Hw Hws]. constructor; [|done].
    cbn. by case_decide.
Qed.

Lemma join_without c sep l :
  has_char c sep = false → Forall (λ s, has_char c s = false) l →
  has_char c (Text.join sep l) = false.
Proof.
  intros Hsep. induction 1 as [|s l Hs Hl IH]; [done|].
  destruct l as [|s' l]; [done|]. rewrite join_cons by done.
  by rewrite !has_char_app, Hs, Hsep, IH.
Qed.

Lemma join_empty sep l : Text.join (String sep "") l = "" → l = [] ∨ l = [""].
Proof.
  destruct l as [|s [|s' l]]; cbn; [auto|intros ->; auto|].
  destruct s; cbn; done.
Qed.

End split_facts.

Section strip_facts.

Lemma lstrip_blank_app pre s :
  blank pre = true →
  Text.lstrip_with Text.is_space (pre +:+ s) = Text.lstrip_with Text.is_space s.
Proof.
  induction pre as [|c pre IH]; [done|]. cbn [blank]. intros [Hc Hpre]%andb_true_iff.
  rewrite append_cons. cbn [Text.lstrip_with]. rewrite Hc. by apply IH.
Qed.

Lemma rstrip_blank post :
  blank post = true → Text.rstrip_with Text.is_space post = "".
Proof.
  induction post as [|c post IH]; [done|]. cbn [blank]. intros [Hc Hpost]%andb_true_iff.
  cbn [Text.rstrip_with]. by rewrite (IH Hpost), Hc.
Qed.

Lemma rstrip_app_blank s post :
  blank post = true →
  Text.rstrip_with Text.is_space (s +:+ post) = Text.rstrip_with Text.is_space s.
Proof.
  intros Hpost. induction s as [|c s IH].
  - rewrite append_nil_l. by apply rstrip_blank.
  - rewrite append_cons. cbn [Text.rstrip_with]. by rewrite IH.
Qed.

Lemma lstrip_blank post :
  blank post = true → Text.lstrip_with Text.is_space post = "".
Proof.
  induction post as [|c post IH]; [done|]. cbn [blank]. intros [Hc Hpost]%andb_true_iff.
  cbn [Text.lstrip_with]. rewrite Hc. by apply IH.
Qed.

Lemma strip_app_blank s post :
  blank post = true → Text.strip (s +:+ post) = Text.strip s.
Proof.
  intros Hpost. unfold Text.strip, Text.strip_with. induction s as [|c s IH].
  - rewrite append_nil_l. by rewrite lstrip_blank.
  - rewrite append_cons. cbn [Text.lstrip_with]. destruct (Text.is_space c); [done|].
    rewrite <- append_cons. by apply rstrip_app_blank.
Qed.

Lemma strip_blank_app pre s :
  blank pre = true → Text.strip (pre +:+ s) = Text.strip s.
Proof.
  intros Hpre. unfold Text.strip, Text.strip_with. by rewrite lstrip_blank_app.
Qed.

End strip_facts.

Section table_facts.

Lemma plain_cells_of_line line :
  has_char newline line = false → Forall plain_cell (Text.split comma line).
Proof.
  intros Hline. apply Forall_forall. intros cell Hcell. split.
  - by apply (proj1 (Forall_forall _ _) (split_pieces_free comma line)).
  - by apply (proj1 (Forall_forall _ _) (split_pieces_without newline comma line Hline)).
Qed.

Lemma plain_line (row : list string) :
  Forall plain_cell row → has_char newline (Text.join (String comma "") row) = false.
Proof.
  intros Hrow. apply join_without; [done|].
  eapply Forall_impl; [exact Hrow|]. by intros cell [_ ?].
Qed.

End table_facts.

(** X1. A table of plain cells, written one row per line with the cells
    joined by commas, is read back as it was, provided the text has no
    whitespace at its two ends (which [strip] would remove). *)
Theorem read_csv_of_csv_text (headers : list string) (data : list (list string)) :
  headers ≠ [] → Forall plain_cell headers → Forall plain_row data →
  Text.strip (csv_text headers data) = csv_text headers data →
  read_csv (csv_text headers data) = (headers, data).
Proof.
  intros Hne Hh Hd Hstrip. unfold read_csv. rewrite Hstrip. unfold csv_text.
  rewrite split_join; [|done|].
  2:{ apply Forall_fmap, Forall_cons. split; [by apply plain_line|].
      eapply Forall_impl; [exact Hd|]. intros row (_ & _ & Hrow). by apply plain_line. }
  rewrite fmap_cons. f_equal.
  - apply split_join; [done|]. eapply Forall_impl; [exact Hh|]. by intros cell [? _].
  - clear Hstrip. induction Hd as [|row data (Hr1 & Hr2 & Hrow) _ IH]; [done|].
    rewrite fmap_cons, filter_cons.
    destruct (Text.join (String comma "") row) as [|c line] eqn:E.
    { by destruct (join_empty _ _ E). }
    cbn [Text.is_empty]. rewrite decide_True by done.
    rewrite fmap_cons, IH. f_equal. rewrite <- E.
    apply split_join; [done|]. eapply Forall_impl; [exact Hrow|]. by intros cell [? _].
Qed.

Lemma read_csv_of_csv_text_witness :
  read_csv (csv_text ["name"; "rate"] [["Ann"; "12"]; [""; ""]])
  = (["name"; "rate"], [["Ann"; "12"]; [""; ""]]).
Proof.
  apply (read_csv_of_csv_text ["name"; "rate"] [["Ann"; "12"]; [""; ""]]).
  - discriminate.
  - by repeat constructor.
  - repeat constructor; discriminate.
  - reflexivity.
Defined.

(** X2. Whatever the text, [read_csv] gives at least one header, only
    plain cells (no comma, no newline), and only rows with at least one
    cell that are not the one empty cell of a blank line. *)
Theorem read_csv_table_shape (text : string) :
  (read_csv text).1 ≠ []
  ∧ Forall plain_cell (read_csv text).1
  ∧ Forall plain_row (read_csv text).2.
Proof.
  split; [apply read_csv_headers_not_nil|]. unfold read_csv.
  pose proof (split_pieces_free newline (Text.strip text)) as Hlines.
  destruct (Text.split newline (Text.strip text)) as [|first rest]; [done|].
  apply Forall_cons in Hlines as [Hfirst Hrest]. cbn [fst snd]. split.
  - by apply plain_cells_of_line.
  - apply Forall_fmap, Forall_forall. intros line Hline.
    apply list_elem_of_filter in Hline as [Hnonempty Hline].
    pose proof (proj1 (Forall_forall _ _) Hrest line Hline) as Hfree. cbn in Hfree.
    split; [apply split_not_nil|]. split; [|by apply plain_cells_of_line].
    intros Hblank. pose proof (join_split comma line) as Hjoin.
    rewrite Hblank in Hjoin. cbn in Hjoin. by subst line.
Qed.

(** X3. Whitespace before and after the content of a file, such as
    newlines at its end, changes nothing of what [read_csv] returns. *)
Theorem read_csv_ignores_surrounding_whitespace (pre text post : string) :
  blank pre = true → blank post = true →
  read_csv (pre +:+ text +:+ post) = read_csv text.
Proof.
  intros Hpre Hpost. unfold read_csv.
  by rewrite strip_blank_app, strip_app_blank.
Qed.

Lemma read_csv_ignores_surrounding_whitespace_witness :
  read_csv (String newline " " +:+ "a,b" +:+ String newline (String newline ""))
  = read_csv "a,b".
Proof.
  apply (read_csv_ignores_surrounding_whitespace (String newline " ") "a,b"
           (String newline (String newline ""))); reflexivity.
Defined.

(** X4. Every record that parse_csv_to_dicts builds is typed by its keys:
    under hours_worked and hourly_rate it holds a float or the int 0,
    under any other key a text (a numeral in another column stays a
    text). *)
Theorem parsed_records_are_typed (text : string) :
  ∃ records,
    parse_csv_to_dicts text = Ok records
    ∧ ∀ rec key v,
        rec ∈ records → rec !! key = Some v →
        if decide (key ∈ ["hours_worked"; "hourly_rate"])
        then v = VInt 0 ∨ ∃ f, v = VFloat f
        else ∃ s, v = VStr s.
Proof.
  eexists. split; [apply parse_csv_to_dicts_ok|].
  intros rec key v Hrec Hv. apply list_elem_of_fmap in Hrec as (row & -> & _).
  pose proof (record_of_parsed _ _ _ _ Hv) as Hp. unfold parsed_value in Hp.
  case_decide.
  - destruct v as [|[]|]; try done; eauto.
  - destruct v; try done; eauto.
Qed.

(** X5. No record of parse_csv_to_dicts has a key "rate" or "salary", and
    a record has the key "hourly_rate" exactly when the header line has
    one of the columns hourly_rate, rate, salary: files that spell the
    column differently give records with the same key. *)
Theorem rate_aliases_share_one_key (text : string) :
  ∃ records,
    parse_csv_to_dicts text = Ok records
    ∧ ∀ rec : Employee, rec ∈ records →
        rec !! "rate" = None ∧ rec !! "salary" = None
        ∧ (is_Some (rec !! "hourly_rate")
           ↔ ∃ header, header ∈ (read_csv text).1
                       ∧ header ∈ ["hourly_rate"; "rate"; "salary"]).
Proof.
  eexists. split; [apply parse_csv_to_dicts_ok|].
  intros rec Hrec. apply list_elem_of_fmap in Hrec as (row & -> & Hrow).
  apply list_elem_of_filter in Hrow as [Hw _].
  assert (∀ key, is_Some (record_of (read_csv text).1 row !! key)
                 ↔ ∃ header, header ∈ (read_csv text).1 ∧ normalize_header header = key)
    as Hdom.
  { intros key. rewrite <- elem_of_dom, record_of_dom by done.
    rewrite elem_of_list_to_set, list_elem_of_fmap. naive_solver. }
  assert (∀ key, key ∈ ["rate"; "salary"] →
                 record_of (read_csv text).1 row !! key = None) as Hnone.
  { intros key Hkey. apply eq_None_not_Some. rewrite Hdom. intros (header & _ & Hn).
    destruct (normalize_header_cases header) as [[_ Heq]|[Hnin Heq]];
      rewrite Heq in Hn; subst key.
    - rewrite !elem_of_cons, elem_of_nil in Hkey. naive_solver.
    - apply Hnin. rewrite !elem_of_cons, elem_of_nil in Hkey.
      rewrite !elem_of_cons. tauto. }
  split; [apply Hnone; by left|]. split; [apply Hnone; right; by left|].
  rewrite Hdom. split.
  - intros (header & Hin & Hn). exists header. split; [done|].
    destruct (normalize_header_cases header) as [[Halias _]|[_ Heq]]; [done|].
    rewrite Heq in Hn. subst header. by left.
  - intros (header & Hin & Halias). exists header. split; [done|].
    destruct (normalize_header_cases header) as [[_ Heq]|[Hnin _]]; done.
Qed.

Lemma length_filter_all {A} (P : A → Prop) `{∀ x, Decision (P x)} (l : list A) :
  (length (filter P l) ≤ length l)%nat
  ∧ (length (filter P l) = length l ↔ Forall P l).
Proof.
  induction l as [|x l [IHle IHeq]]; [by split|].
  rewrite filter_cons. case_decide as Hx; cbn [length].
  - split; [lia|]. rewrite Forall_cons. split.
    + intros Hlen. split; [done|]. apply IHeq. lia.
    + intros [_ Hl]. f_equal. by apply IHeq.
  - split; [lia|]. rewrite Forall_cons. split; [lia|]. by intros [? _].
Qed.

(** X6. parse_csv_to_dicts gives at most one record per data row, and as
    many records as rows exactly when every row has as many cells as the
    header line; a file without data rows gives no record. *)
Theorem records_count_rows_of_header_width (text : string) :
  ∃ records,
    parse_csv_to_dicts text = Ok records
    ∧ (length records ≤ length (read_csv text).2)%nat
    ∧ (length records = length (read_csv text).2
       ↔ Forall (width_ok (read_csv text).1) (read_csv text).2)
    ∧ ((read_csv text).2 = [] → records = []).
Proof.
  eexists. split; [apply parse_csv_to_dicts_ok|]. rewrite length_fmap.
  destruct (length_filter_all (width_ok (read_csv text).1) (read_csv text).2) as [Hle Heq].
  split; [done|]. split; [done|]. by intros ->.
Qed.

Section column_facts.

Lemma store_cells_perm (e : Employee) cells cells' :
  NoDup cells.*1 → cells ≡ₚ cells' → store_cells e cells = store_cells e cells'.
Proof.
  intros Hnd Hp. revert e Hnd.
  induction Hp as [|[k v] l l' _ IH|[k v] [k' v'] l|l l' l'' Hp1 IH1 Hp2 IH2];
    intros e Hnd.
  - done.
  - rewrite !store_cells_cons. apply IH. rewrite fmap_cons in Hnd.
    by apply NoDup_cons in Hnd as [_ ?].
  - rewrite !store_cells_cons. f_equal. apply insert_insert_ne.
    rewrite !fmap_cons in Hnd. apply NoDup_cons in Hnd as [Hnin _].
    cbn [fst] in Hnin. intros ->. apply Hnin. by left.
  - rewrite IH1 by done. apply IH2. by rewrite <- Hp1.
Qed.

Lemma zip_normalized headers (row : list string) :
  zip (normalize_header <$> headers) row
  = prod_map normalize_header id <$> zip headers row.
Proof.
  revert row. induction headers as [|h headers IH]; intros [|c row]; [done..|].
  cbn. by rewrite <- IH.
Qed.

Lemma record_of_perm headers row headers' row' :
  width_ok headers row →
  NoDup (normalize_header <$> headers) →
  zip headers row ≡ₚ zip headers' row' →
  record_of headers row = record_of headers' row'.
Proof.
  intros Hw Hnd Hp. unfold record_of. rewrite !zip_normalized.
  apply store_cells_perm; [|by rewrite Hp].
  assert (∀ l : list (string * string),
            (prod_map normalize_header id <$> l).*1 = normalize_header <$> l.*1) as ->.
  { intros l. rewrite <- !list_fmap_compose. reflexivity. }
  rewrite fst_zip; [done|]. unfold width_ok in Hw. lia.
Qed.

End column_facts.

(** X7. The order of the columns of a file is irrelevant when the
    normalized header names are pairwise distinct: a second file whose
    rows hold the same cells under the same headers in another column
    order gives the same records. *)
Theorem column_order_is_irrelevant text text' :
  NoDup (normalize_header <$> (read_csv text).1) →
  Forall2 (λ row row',
             width_ok (read_csv text).1 row ∧ width_ok (read_csv text').1 row'
             ∧ zip (read_csv text).1 row ≡ₚ zip (read_csv text').1 row')
    (read_csv text).2 (read_csv text').2 →
  parse_csv_to_dicts text = parse_csv_to_dicts text'.
Proof.
  intros Hnd Hrows. rewrite !parse_csv_to_dicts_ok. f_equal.
  induction Hrows as [|row row' rows rows' (Hw & Hw' & Hp) _ IH]; [done|].
  rewrite !filter_cons. unfold width_ok in Hw, Hw'.
  rewrite !decide_True by done. rewrite !fmap_cons, IH. f_equal.
  by apply record_of_perm.
Qed.

Lemma column_order_is_irrelevant_witness :
  parse_csv_to_dicts columns_text = parse_csv_to_dicts columns_text_rotated.
Proof.
  apply (column_order_is_irrelevant columns_text columns_text_rotated).
  - vm_compute. apply (bool_decide_unpack _). vm_compute. reflexivity.
  - vm_compute. repeat constructor; apply (Permutation_app_comm [_; _] [_]).
Defined.

Section report_shape_facts.

Lemma get_text_raise e key default x :
  get_text e key default = Raise x → x = NotModelled.
Proof. unfold get_text. destruct (e !! key) as [[]|]; by intros [= <-]. Qed.

Lemma group_by_department_raise recs deps0 x :
  group_by_department recs deps0 = Raise x → x = NotModelled.
Proof.
  revert deps0. induction recs as [|e recs IH]; intros deps0; [done|].
  cbn [group_by_department].
  destruct (get_text e "department" "Unknown") as [d|y] eqn:E; cbn.
  - apply IH.
  - intros [= <-]. by eapply get_text_raise.
Qed.

Lemma group_by_department_Ok recs deps0 deps :
  group_by_department recs deps0 = Ok deps →
  Forall (λ e, ∃ d, get_text e "department" "Unknown" = Ok d) recs.
Proof.
  revert deps0. induction recs as [|e recs IH]; intros deps0 Hg; [constructor|].
  cbn [group_by_department] in Hg. apply bind_Ok in Hg as (d & Hd & Hg).
  constructor; [eauto|]. by eapply IH.
Qed.

(** The grouping is decided by the records of each department. *)
Lemma group_by_department_ext recs recs' deps deps' :
  group_by_department recs ∅ = Ok deps →
  group_by_department recs' ∅ = Ok deps' →
  (∀ d, in_department recs d = in_department recs' d) →
  deps = deps'.
Proof.
  intros Hg Hg' Hsame. apply map_eq. intros d.
  rewrite (group_by_department_lookup _ _ _ d Hg),
    (group_by_department_lookup _ _ _ d Hg'), Hsame. done.
Qed.

Lemma payout_totals_reorder recs recs' :
  recs ≡ₚ recs' →
  (∀ d, in_department recs d = in_department recs' d) →
  payout_totals recs = payout_totals recs'.
Proof.
  intros Hperm Hsame. unfold payout_totals.
  destruct (group_by_department recs ∅) as [deps|x] eqn:Hg;
    destruct (group_by_department recs' ∅) as [deps'|x'] eqn:Hg'.
  - by rewrite (group_by_department_ext _ _ _ _ Hg Hg' Hsame).
  - apply group_by_department_Ok in Hg. rewrite Hperm in Hg.
    destruct (group_by_department_total recs' ∅ Hg) as [deps' Hdeps'].
    congruence.
  - apply group_by_department_Ok in Hg'. rewrite <- Hperm in Hg'.
    destruct (group_by_department_total recs ∅ Hg') as [deps Hdeps].
    congruence.
  - apply group_by_department_raise in Hg, Hg'. by subst.
Qed.

Lemma elem_of_department_names recs d :
  d ∈ department_names recs ↔ in_department recs d ≠ [].
Proof.
  unfold department_names, in_department.
  rewrite elem_of_list_to_set, list_elem_of_omap. split.
  - intros (e & He & Hd). destruct (get_text e "department" "Unknown") as [d'|] eqn:E;
      [|done]. injection Hd as ->.
    intros Hnil. assert (e ∈ filter (λ e, get_text e "department" "Unknown" = Ok d) recs)
      as Hin by (by apply list_elem_of_filter).
    rewrite Hnil in Hin. by apply elem_of_nil in Hin.
  - intros Hne.
    destruct (filter (λ e, get_text e "department" "Unknown" = Ok d) recs)
      as [|e l] eqn:E; [done|].
    assert (e ∈ filter (λ e, get_text e "department" "Unknown" = Ok d) recs)
      as Hin by (rewrite E; by left).
    apply list_elem_of_filter in Hin as [Hd Hin]. exists e. split; [done|].
    by rewrite Hd.
Qed.

Lemma sorted_items_count recs deps :
  group_by_department recs ∅ = Ok deps →
  length (sorted_items deps) = size (department_names recs).
Proof.
  intros Hg. destruct (sorted_items_grouped recs deps Hg) as [_ Hkeys].
  rewrite <- (length_fmap fst).
  rewrite <- (size_list_to_set (C:=gset string) (sorted_items deps).*1).
  - f_equal. apply set_eq. intros d.
    by rewrite elem_of_list_to_set, Hkeys, elem_of_department_names.
  - rewrite sorted_items_perm. apply NoDup_fst_map_to_list.
Qed.

Lemma Zsum_ones {A} (l : list A) : Zsum ((λ _, 1) <$> l) = Z.of_nat (length l).
Proof.
  induction l as [|x l IH]; [done|]. rewrite fmap_cons, Zsum_cons, IH. cbn [length]. lia.
Qed.

Lemma section_of_length item sec :
  section_of item sec → length sec.1.1 = (2 + length item.2)%nat.
Proof.
  intros (rows & subtotal & Hrows & _ & _ & _ & ->).
  cbn [length]. rewrite length_app, !length_fmap. cbn [length].
  apply Forall2_length in Hrows. lia.
Qed.

Lemma sections_length items (secs : list (list string * pyval * pyval)) :
  Forall2 section_of items secs →
  Z.of_nat (length (concat secs.*1.*1))
  = 2 * Z.of_nat (length items) + items_sum (λ _, 1) items.
Proof.
  induction 1 as [|[d emps] sec items secs Hsec _ IH]; [done|].
  rewrite !fmap_cons. cbn [concat]. rewrite length_app, items_sum_cons.
  rewrite (section_of_length _ _ Hsec), Zsum_ones. cbn [snd length]. lia.
Qed.

Lemma header_line_head : ∃ rest, header_line = String "n" rest.
Proof. eexists. reflexivity. Qed.

(** The report of at least one record starts with the header line. *)
Lemma report_of_records_is_a_table e recs :
  generate_payout_report (e :: recs) ≠ Ok "No data available for report.".
Proof.
  intros Hreport. unfold generate_payout_report in Hreport.
  apply bind_Ok in Hreport as (st & Hst & Hreport).
  apply bind_Ok in Hreport as (closing & _ & [= Hreport]).
  unfold payout_totals in Hst. apply bind_Ok in Hst as (deps & _ & Hloop).
  apply departments_loop_inv in Hloop as (secs & _ & Hlines & _).
  rewrite Hlines in Hreport. cbn [report_lines app] in Hreport.
  destruct header_line_head as [rest Hhead]. rewrite Hhead in Hreport.
  rewrite join_cons_head in Hreport. discriminate.
Qed.

End report_shape_facts.

(** X8. The lines emitted before the two closing lines are the header
    line, two lines for each department that occurs (its name and its
    subtotal) and one line for each record: no record is left out and
    none is listed twice. *)
Theorem report_has_one_line_per_record (employees_data : list Employee) st :
  payout_totals employees_data = Ok st →
  length (report_lines st)
  = (1 + 2 * size (department_names employees_data) + length employees_data)%nat.
Proof.
  intros Hst. unfold payout_totals in Hst.
  apply bind_Ok in Hst as (deps & Hdeps & Hloop).
  apply departments_loop_inv in Hloop as (secs & Hsecs & Hlines & _ & _).
  rewrite Hlines. cbn [report_lines]. rewrite length_app. cbn [length].
  pose proof (sections_length _ _ Hsecs) as Hlen.
  rewrite (sorted_items_sum _ _ _ Hdeps), Zsum_ones in Hlen.
  rewrite (sorted_items_count _ _ Hdeps) in Hlen. lia.
Qed.

Lemma report_has_one_line_per_record_witness :
  ∃ st, payout_totals three_records = Ok st
        ∧ length (report_lines st)
          = (1 + 2 * size (department_names three_records) + length three_records)%nat.
Proof.
  eexists. split; [vm_compute; reflexivity|].
  apply (report_has_one_line_per_record three_records). vm_compute. reflexivity.
Defined.

(** X9. The report depends on the order of the records only through the
    order within each department: two lists with the same records, in
    which the records of every department come in the same order, give
    the same result (the same report, or the same exception). *)
Theorem report_same_when_departments_interleave (recs recs' : list Employee) :
  recs ≡ₚ recs' →
  (∀ d, in_department recs d = in_department recs' d) →
  generate_payout_report recs = generate_payout_report recs'.
Proof.
  intros Hperm Hsame. unfold generate_payout_report.
  rewrite (payout_totals_reorder _ _ Hperm Hsame).
  destruct recs as [|e recs], recs' as [|e' recs']; [done| | |done].
  - by apply Permutation_nil_cons in Hperm.
  - symmetry in Hperm. by apply Permutation_nil_cons in Hperm.
Qed.

(** X10. generate_payout_report returns the text "No data available for
    report." for the empty list of records only: a report of records
    starts with the header line. *)
Theorem no_data_text_only_without_records (employees_data : list Employee) :
  generate_payout_report employees_data = Ok "No data available for report."
  ↔ employees_data = [].
Proof.
  split; [|by intros ->]. destruct employees_data as [|e recs]; [done|].
  intros Hreport. by apply report_of_records_is_a_table in Hreport.
Qed.

Lemma report_same_when_departments_interleave_witness :
  generate_payout_report three_records
  = generate_payout_report three_records_interleaved.
Proof.
  apply (report_same_when_departments_interleave three_records three_records_interleaved).
  - unfold three_records_interleaved, three_records. apply perm_skip, perm_swap.
  - intros d. unfold in_department, three_records_interleaved, three_records.
    rewrite !filter_cons, !filter_nil.
    repeat match goal with
           | |- context [decide (get_text ?e ?k ?u = Ok d)] =>
               let v := eval vm_compute in (get_text e k u) in
               change (get_text e k u) with v
           end.
    destruct (decide (Ok "IT" = Ok d)), (decide (Ok "HR" = Ok d)); congruence.
Defined.

Section record_line_facts.

Lemma Forall2_elem_of_l {A B} (P : A → B → Prop) l k x :
  Forall2 P l k → x ∈ l → ∃ y, y ∈ k ∧ P x y.
Proof.
  induction 1 as [|a b l k Hab _ IH]; intros Hx; [by apply elem_of_nil in Hx|].
  apply elem_of_cons in Hx as [->|Hx].
  - exists b. split; [by left|done].
  - destruct (IH Hx) as (y & Hy & HP). exists y. split; [by right|done].
Qed.

Lemma elem_of_concat {A} (x : A) (l : list A) (ls : list (list A)) :
  x ∈ l → l ∈ ls → x ∈ concat ls.
Proof.
  intros Hx Hl. induction ls as [|l' ls IH]; [by apply elem_of_nil in Hl|].
  cbn [concat]. apply elem_of_app. apply elem_of_cons in Hl as [<-|Hl]; auto.
Qed.

Lemma employee_row_line e row :
  employee_row e = Ok row →
  ∃ name numbers,
    get_text e "name" "Unknown" = Ok name
    ∧ row.1.1 = "-------------- " +:+ Text.ljust 20 name +:+ numbers.
Proof.
  unfold employee_row. intros H.
  apply bind_Ok in H as (name & Hname & H). apply bind_Ok in H as (payout & _ & H).
  apply bind_Ok in H as (hs & _ & H). apply bind_Ok in H as (rs & _ & H).
  apply bind_Ok in H as (ps & _ & H). injection H as <-.
  exists name. eexists. split; [done|]. cbn [fst]. reflexivity.
Qed.

End record_line_facts.

(** X11. Every record has its line in the report: the line that
    [employee_row] builds for it is among the lines emitted, and it is
    the fourteen dashes, a space and the record's name ("Unknown" when it
    has none) padded to twenty characters and never cut, followed by the
    numbers. *)
Theorem every_record_has_its_line (employees_data : list Employee) st employee :
  payout_totals employees_data = Ok st →
  employee ∈ employees_data →
  ∃ line hours payout name numbers,
    employee_row employee = Ok (line, hours, payout)
    ∧ line ∈ report_lines st
    ∧ get_text employee "name" "Unknown" = Ok name
    ∧ line = "-------------- " +:+ Text.ljust 20 name +:+ numbers.
Proof.
  intros Hst He. unfold payout_totals in Hst.
  apply bind_Ok in Hst as (deps & Hdeps & Hloop).
  apply departments_loop_inv in Hloop as (secs & Hsecs & Hlines & _ & _).
  pose proof (group_by_department_Ok _ _ _ Hdeps) as Hdept.
  destruct (proj1 (Forall_forall _ _) Hdept _ He) as [d Hd].
  assert (employee ∈ in_department employees_data d) as Hin.
  { unfold in_department. by apply list_elem_of_filter. }
  assert ((d, in_department employees_data d) ∈ sorted_items deps) as Hitem.
  { apply elem_of_sorted_items.
    rewrite (group_by_department_lookup _ _ _ d Hdeps), lookup_empty.
    destruct (in_department employees_data d); [by apply elem_of_nil in Hin|done]. }
  destruct (Forall2_elem_of_l _ _ _ _ Hsecs Hitem)
    as ([[lines sh] sp] & Hsec & rows & subtotal & Hrows & _ & _ & _ & Hl).
  cbn [fst snd] in Hrows, Hl.
  destruct (Forall2_elem_of_l _ _ _ _ Hrows Hin) as ([[line h] p] & Hrow & Hline).
  destruct (employee_row_line _ _ Hline) as (name & numbers & Hname & Hshape).
  exists line, h, p, name, numbers. split; [done|]. split; [|done].
  rewrite Hlines. apply elem_of_app. right. apply (elem_of_concat _ lines).
  - rewrite Hl. right. apply elem_of_app. left.
    apply list_elem_of_fmap. exists (line, h). split; [done|].
    apply list_elem_of_fmap. by exists (line, h, p).
  - apply list_elem_of_fmap. exists (lines, sh). split; [done|].
    apply list_elem_of_fmap. by exists (lines, sh, sp).
Qed.

Lemma every_record_has_its_line_witness :
  ∃ line hours payout name numbers,
    employee_row {[ "name" := VStr "Ann" ]} = Ok (line, hours, payout)
    ∧ line ∈ report_lines (Totals [header_line; "Unknown";
        "-------------- Ann                         0        0 $        0";
        "                                                     0          $       0"]
        (VInt 0) (VInt 0))
    ∧ get_text {[ "name" := VStr "Ann" ]} "name" "Unknown" = Ok name
    ∧ line = "-------------- " +:+ Text.ljust 20 name +:+ numbers.
Proof.
  apply (every_record_has_its_line [ {[ "name" := VStr "Ann" ]} ]).
  - vm_compute. reflexivity.
  - by left.
Defined.

(* ===================================================================== *)
(** ** main *)
(* ===================================================================== *)

Section main_facts.

Lemma isfile_true fs p : isfile fs p = true ↔ is_Some (fs !! p).
Proof. unfold isfile. apply bool_decide_eq_true. Qed.

Lemma first_missing_None fs files :
  first_missing fs files = None ↔ Forall (λ p, is_Some (fs !! p)) files.
Proof.
  induction files as [|p files IH]; [by split|]. cbn [first_missing].
  rewrite Forall_cons, <- IH, <- isfile_true. destruct (isfile fs p); naive_solver.
Qed.

Lemma first_missing_Some fs before p after :
  Forall (λ q, is_Some (fs !! q)) before → fs !! p = None →
  first_missing fs (before ++ p :: after) = Some p.
Proof.
  intros Hbefore Hp. induction Hbefore as [|q before Hq _ IH]; cbn [app first_missing].
  - assert (isfile fs p = false) as ->; [|done].
    apply not_true_is_false. rewrite isfile_true, Hp. by intros [].
  - by rewrite (proj2 (isfile_true fs q) Hq).
Qed.

Lemma parse_csv_file_ok fs p :
  is_Some (fs !! p) → parse_csv_file fs p = inr (file_records fs p).
Proof.
  intros [text Htext]. unfold parse_csv_file, file_records. rewrite Htext.
  by rewrite parse_csv_to_dicts_ok.
Qed.

Lemma read_files_ok fs files acc :
  Forall (λ p, is_Some (fs !! p)) files →
  read_files fs files acc = inr (acc ++ all_records fs files).
Proof.
  intros Hfiles. revert acc. induction Hfiles as [|p files Hp _ IH]; intros acc.
  - cbn. by rewrite app_nil_r.
  - cbn [read_files]. rewrite (parse_csv_file_ok _ _ Hp), IH.
    unfold all_records. rewrite fmap_cons. cbn [concat]. by rewrite app_assoc.
Qed.

Lemma file_records_parsed fs p : Forall parsed_employee (file_records fs p).
Proof.
  unfold file_records. destruct (fs !! p) as [text|]; [|constructor].
  destruct (parse_csv_to_dicts text) as [records|] eqn:E; [|constructor].
  by eapply parse_csv_to_dicts_parsed.
Qed.

Lemma all_records_parsed fs files : Forall parsed_employee (all_records fs files).
Proof.
  unfold all_records. induction files as [|p files IH]; [constructor|].
  rewrite fmap_cons. cbn [concat]. apply Forall_app. split; [|done].
  apply file_records_parsed.
Qed.

(** main on files that all exist: the report of their records is
    produced, and printed when the report type is known. *)
Lemma main_all_files fs files report :
  Forall (λ p, is_Some (fs !! p)) files →
  ∃ text,
    generate_payout_report (all_records fs files) = Ok text
    ∧ main fs files report
      = if decide (report = "payout") then inr (Run [text] 0)
        else inr (Run ["Error: Unknown report type: " +:+ report] 1).
Proof.
  intros Hfiles.
  destruct (generate_payout_report_parsed _ (all_records_parsed fs files))
    as [text Htext].
  exists text. split; [done|]. unfold main.
  rewrite (proj2 (first_missing_None _ _) Hfiles), read_files_ok by done.
  cbn [app]. unfold run_report, get_report_generator, report_generators.
  case_decide as Hr.
  - subst report. rewrite lookup_singleton_eq. cbn. by rewrite Htext.
  - by rewrite lookup_singleton_ne.
Qed.

End main_facts.

(** X12. When a listed path is no file, main prints once, "Error: File
    not found: <path>" for the first such path of the command line,
    and returns 1, whatever the other files hold and whatever the report
    type: nothing is parsed and no report is printed. *)
Theorem main_stops_at_first_missing_file fs before file_path after report :
  Forall (λ p, is_Some (fs !! p)) before → fs !! file_path = None →
  main fs (before ++ file_path :: after) report
  = inr (Run ["Error: File not found: " +:+ file_path] 1).
Proof.
  intros Hbefore Hp. unfold main. by rewrite first_missing_Some.
Qed.

Lemma main_stops_at_first_missing_file_witness :
  main sample_fs (["it.csv"] ++ "gone.csv" :: ["also_gone.csv"; "hr.csv"]) "payout"
  = inr (Run ["Error: File not found: gone.csv"] 1).
Proof.
  apply (main_stops_at_first_missing_file sample_fs ["it.csv"] "gone.csv"
           ["also_gone.csv"; "hr.csv"] "payout").
  - repeat constructor. vm_compute. eauto.
  - vm_compute. reflexivity.
Defined.

(** X13. main never ends in an uncaught exception: whatever the files
    hold, it prints exactly one text and returns 0 or 1, and it returns 0
    exactly when every listed path is a file and the report type is
    "payout". *)
Theorem main_prints_once_and_returns_0_or_1 fs files report :
  ∃ text code,
    main fs files report = inr (Run [text] code)
    ∧ (code = 0 ∨ code = 1)
    ∧ (code = 0 ↔ Forall (λ p, is_Some (fs !! p)) files ∧ report = "payout").
Proof.
  destruct (first_missing fs files) as [p|] eqn:Hmiss.
  - exists ("Error: File not found: " +:+ p), 1. unfold main. rewrite Hmiss.
    split; [done|]. split; [by right|]. split; [done|]. intros [Hall _].
    apply first_missing_None in Hall. congruence.
  - apply first_missing_None in Hmiss.
    destruct (main_all_files _ _ report Hmiss) as (text & _ & ->).
    case_decide as Hr.
    + exists text, 0. split; [done|]. split; [by left|]. done.
    + eexists _, 1. split; [done|]. split; [by right|]. split; [done|]. by intros [_ ?].
Qed.

(** X14. When every listed path is a file and the report type is
    "payout", main prints the payout report of the records of the files,
    concatenated in the order of the command line, and returns 0. *)
Theorem main_prints_report_of_merged_files fs files :
  Forall (λ p, is_Some (fs !! p)) files →
  ∃ text,
    generate_payout_report (all_records fs files) = Ok text
    ∧ main fs files "payout" = inr (Run [text] 0).
Proof.
  intros Hfiles. destruct (main_all_files _ _ "payout" Hfiles) as (text & Htext & ->).
  exists text. by rewrite decide_True.
Qed.

Lemma main_prints_report_of_merged_files_witness :
  ∃ text,
    generate_payout_report (all_records sample_fs ["it.csv"; "hr.csv"]) = Ok text
    ∧ main sample_fs ["it.csv"; "hr.csv"] "payout" = inr (Run [text] 0).
Proof.
  apply (main_prints_report_of_merged_files sample_fs ["it.csv"; "hr.csv"]).
  repeat constructor; vm_compute; eauto.
Defined.

(** X15. When every listed path is a file and the report type is not
    "payout", main prints "Error: Unknown report type: <type>" and
    returns 1; the files are read, but no report is printed. *)
Theorem main_rejects_unknown_report_type fs files report :
  Forall (λ p, is_Some (fs !! p)) files → report ≠ "payout" →
  main fs files report
  = inr (Run ["Error: Unknown report type: " +:+ report] 1).
Proof.
  intros Hfiles Hr. destruct (main_all_files _ _ report Hfiles) as (text & _ & ->).
  by rewrite decide_False.
Qed.

Lemma main_rejects_unknown_report_type_witness :
  main sample_fs ["it.csv"; "hr.csv"] "invalid"
  = inr (Run ["Error: Unknown report type: invalid"] 1).
Proof.
  apply (main_rejects_unknown_report_type sample_fs ["it.csv"; "hr.csv"] "invalid").
  - repeat constructor; vm_compute; eauto.
  - discriminate.
Defined.

(** X16. When every listed path is a file and the report type is
    "payout", main prints "No data available for report." exactly when
    no file gives a record, that is when no file has a data row with as
    many cells as its header line. *)
Theorem main_prints_no_data_without_records fs files :
  Forall (λ p, is_Some (fs !! p)) files →
  main fs files "payout" = inr (Run ["No data available for report."] 0)
  ↔ Forall (λ p, file_records fs p = []) files.
Proof.
  intros Hfiles. destruct (main_all_files _ _ "payout" Hfiles) as (text & Htext & ->).
  rewrite decide_True by done.
  assert (all_records fs files = [] ↔ Forall (λ p, file_records fs p = []) files)
    as <-.
  { unfold all_records. clear. induction files as [|p files IH]; [by split|].
    rewrite fmap_cons, Forall_cons, <- IH. cbn [concat].
    split; [by intros [-> ->]%app_eq_nil|by intros [-> ->]]. }
  split.
  - intros [= ->]. destruct (all_records fs files) as [|e recs]; [done|].
    by apply report_of_records_is_a_table in Htext.
  - intros Hnil. rewrite Hnil in Htext. by injection Htext as <-.
Qed.

Lemma main_prints_no_data_without_records_witness :
  main sample_fs ["empty.csv"] "payout" = inr (Run ["No data available for report."] 0)
  ↔ Forall (λ p, file_records sample_fs p = []) ["empty.csv"].
Proof.
  apply (main_prints_no_data_without_records sample_fs ["empty.csv"]).
  repeat constructor; vm_compute; eauto.
Defined.
